(** * s3test: a directory-scan existence check and its create/unlink driver

    Shallow embedding of [ci/s3test.c] (wildland-client).  The program takes
    one path, checks through a directory scan that no entry of that name is
    listed, creates the file, checks that it is listed, unlinks it and checks
    that it is gone again.

    The C functions [eh], [lookup_file] and [main] are embedded as
    computations in a state-and-outcome monad over a [world]: the state of
    the storage backend, [errno], the text written to the standard error
    stream, the live heap blocks, the open directory streams and the log of
    the library calls made so far.  The backend itself is an interface
    ([Backend]); a small POSIX-like directory tree is given as one
    instance. *)

From Stdlib Require Import ZArith Ascii String List Lia.
From stdpp Require Import base gmap strings list.

#[local] Open Scope Z_scope.

(** ** Constants of the system headers (Linux values) *)

Definition EPERM : Z := 1.
Definition ENOENT : Z := 2.
Definition EIO : Z := 5.
Definition EBADF : Z := 9.
Definition EISDIR : Z := 21.
Definition ENAMETOOLONG : Z := 36.
Definition NAME_MAX : nat := 255.
Definition O_RDWR : Z := 2.
Definition O_CREAT : Z := 64.

(** ** C strings

    A value of type [string] stands for the bytes of a C string before its
    terminating NUL.  A [char *] is [option string]: [None] is the null
    pointer, and a pointer into the middle of a string is the suffix that
    starts there. *)

Abbreviation cptr := (option string).

Definition NUL : ascii := Ascii.zero.

(** The line feed, as a string. *)
Definition LF : string := String "010"%char EmptyString.

(** [strlen] *)
Definition strlen (s : string) : Z := Z.of_nat (String.length s).

(** [strrchr s c]: the suffix of [s] that starts at the last occurrence of
    [c]; the terminating NUL counts as part of the string. *)
Fixpoint strrchr (s : string) (c : ascii) : cptr :=
  match s with
  | EmptyString => if Ascii.eqb c NUL then Some EmptyString else None
  | String a s' =>
      match strrchr s' c with
      | Some r => Some r
      | None => if Ascii.eqb a c then Some s else None
      end
  end.

(** The bytes copied by [strndup s n]: at most [n] of them. *)
Fixpoint str_take (n : nat) (s : string) : string :=
  match n, s with
  | S k, String a s' => String a (str_take k s')
  | _, _ => EmptyString
  end.

(** [strcmp]: the sign of the first difference, bytes compared as
    [unsigned char]; the terminating NUL is implicit, so a proper prefix
    compares below. *)
Fixpoint strcmp (a b : string) : Z :=
  match a, b with
  | EmptyString, EmptyString => 0
  | EmptyString, String _ _ => -1
  | String _ _, EmptyString => 1
  | String x a', String y b' =>
      if Ascii.eqb x y then strcmp a' b'
      else Z.of_nat (nat_of_ascii x) - Z.of_nat (nat_of_ascii y)
  end.

(** ** The storage backend *)

(** Result of a system call: an [errno] value or a result. *)
Inductive sysres (A : Type) : Type :=
| Err (e : Z)
| Ok (a : A).
Arguments Err {A} e.
Arguments Ok {A} a.

(** What the program asks of the operating system.  [os_opendir] gives the
    names of a directory in the order [readdir] enumerates them, a read that
    fails midway ending the enumeration; reading a directory does not change
    the state of the backend.  [open], [close] and [unlink] answer and give
    the next state.  [os_strerror] is the text [perror] prints for an
    [errno]. *)
Class Backend : Type := {
  fs : Type;
  os_opendir : fs -> string -> sysres (list string);
  os_open : fs -> string -> Z -> sysres Z * fs;
  os_close : fs -> Z -> sysres unit * fs;
  os_unlink : fs -> string -> sysres unit * fs;
  os_strerror : Z -> string
}.

(** ** Outcomes and the log of calls *)

(** Behaviour the C standard or POSIX leaves undefined. *)
Inductive ub : Type :=
| NullString         (* a null [char *] given to a string function *)
| NullArith          (* arithmetic on a null pointer *)
| PastEnd            (* a pointer moved beyond the end of its string *)
| NullDir            (* [readdir] or [closedir] on a null [DIR *] *)
| StaleDir           (* a [DIR *] used after [closedir] *)
| ArgvBounds.        (* [argv] read past [argv[argc]] *)

Inductive outcome (A : Type) : Type :=
| Ret (a : A)              (* the call returns *)
| Exited (status : Z)      (* [exit status] *)
| Aborted                  (* [abort ()] after a failed [assert] *)
| Undefined (u : ub)
| Budget.                  (* loop budget of the model used up *)
Arguments Ret {A} a.
Arguments Exited {A} status.
Arguments Aborted {A}.
Arguments Undefined {A} u.
Arguments Budget {A}.

Inductive event : Type :=
| EvOpendir (name : string) (r : sysres nat)
| EvReaddir (h : nat) (r : option string)
| EvClosedir (h : nat)
| EvOpen (path : string) (flags : Z) (r : sysres Z)
| EvClose (fd : Z) (r : sysres unit)
| EvUnlink (path : string) (r : sysres unit).

(** The value a system-call wrapper returns in C. *)
Definition c_ret {A : Type} (f : A -> Z) (r : sysres A) : Z :=
  match r with
  | Err _ => -1
  | Ok a => f a
  end.

(** A [DIR *] is [option nat]: [None] is the null pointer. *)
Abbreviation DIRp := (option nat).

Section Program.
Context {B : Backend}.

Record world : Type := World {
  w_fs : fs;
  w_errno : Z;
  w_stderr : list string;
  w_heap : nat;                         (* live [malloc] blocks *)
  w_dirs : gmap nat (list string);      (* open streams: names not yet read *)
  w_trace : list event
}.

Definition set_fs (s : fs) (w : world) : world :=
  World s (w_errno w) (w_stderr w) (w_heap w) (w_dirs w) (w_trace w).
Definition set_errno (e : Z) (w : world) : world :=
  World (w_fs w) e (w_stderr w) (w_heap w) (w_dirs w) (w_trace w).
Definition put_stderr (line : string) (w : world) : world :=
  World (w_fs w) (w_errno w) (w_stderr w ++ [line]) (w_heap w) (w_dirs w)
    (w_trace w).
Definition set_heap (n : nat) (w : world) : world :=
  World (w_fs w) (w_errno w) (w_stderr w) n (w_dirs w) (w_trace w).
Definition set_dirs (d : gmap nat (list string)) (w : world) : world :=
  World (w_fs w) (w_errno w) (w_stderr w) (w_heap w) d (w_trace w).
Definition log (e : event) (w : world) : world :=
  World (w_fs w) (w_errno w) (w_stderr w) (w_heap w) (w_dirs w)
    (w_trace w ++ [e]).

(** [errno] after a call: set on failure, kept on success. *)
Definition note_errno {A : Type} (r : sysres A) (w : world) : world :=
  match r with
  | Err e => set_errno e w
  | Ok _ => w
  end.

(** ** The monad *)

Definition M (A : Type) : Type := world -> outcome A * world.

#[export] Instance M_ret : MRet M := fun A a w => (Ret a, w).

#[export] Instance M_bind : MBind M := fun A C f m w =>
  match m w with
  | (Ret a, w') => f a w'
  | (Exited n, w') => (Exited n, w')
  | (Aborted, w') => (Aborted, w')
  | (Undefined u, w') => (Undefined u, w')
  | (Budget, w') => (Budget, w')
  end.

Definition undefined {A : Type} (u : ub) : M A := fun w => (Undefined u, w).

(** ** Library calls *)

(** [exit] *)
Definition c_exit {A : Type} (status : Z) : M A := fun w => (Exited status, w).

(** [perror msg]: [msg], a colon and the text of the current [errno]. *)
Definition perror_line (msg : string) (e : Z) : string :=
  (msg +:+ ": " +:+ os_strerror e +:+ String "010"%char EmptyString)%string.

Definition perror (msg : string) : M unit := fun w =>
  (Ret tt, put_stderr (perror_line msg (w_errno w)) w).

(** [assert]: a false condition prints the text of the expression and
    aborts. *)
Definition assert_line (expr : string) : string :=
  ("Assertion `" +:+ expr +:+ "' failed.")%string.

Definition c_assert (expr : string) (cond : bool) : M unit := fun w =>
  if cond then (Ret tt, w) else (Aborted, put_stderr (assert_line expr) w).

(** String functions on pointers. *)
Definition c_strrchr (s : cptr) (c : ascii) : M cptr :=
  match s with
  | None => undefined NullString
  | Some s => mret (strrchr s c)
  end.

(** [p + 1] for a [char *] that points at a byte of a string. *)
Definition ptr_succ (p : cptr) : M cptr :=
  match p with
  | None => undefined NullArith
  | Some EmptyString => undefined PastEnd
  | Some (String _ rest) => mret (Some rest)
  end.

(** [q - p] for [q] pointing into the string at [p]. *)
Definition ptr_diff (q p : cptr) : M nat :=
  match q, p with
  | Some sq, Some sp => mret (String.length sp - String.length sq)%nat
  | _, _ => undefined NullArith
  end.

Definition c_strlen (s : cptr) : M Z :=
  match s with
  | None => undefined NullString
  | Some s => mret (strlen s)
  end.

Definition c_strcmp (a b : cptr) : M Z :=
  match a, b with
  | Some a, Some b => mret (strcmp a b)
  | _, _ => undefined NullString
  end.

(** [strndup]: a fresh heap block holding the first [n] bytes; the
    allocation is taken to succeed. *)
Definition strndup (s : cptr) (n : nat) : M cptr :=
  match s with
  | None => undefined NullString
  | Some s => fun w => (Ret (Some (str_take n s)), set_heap (S (w_heap w)) w)
  end.

(** [free] *)
Definition free (p : cptr) : M unit := fun w =>
  match p with
  | None => (Ret tt, w)
  | Some _ => (Ret tt, set_heap (Nat.pred (w_heap w)) w)
  end.

(** Directory streams: [Some h] names the stream [h] of [w_dirs]. *)

Definition opendir (name : cptr) : M DIRp :=
  match name with
  | None => undefined NullString
  | Some name => fun w =>
      match os_opendir (w_fs w) name with
      | Err e => (Ret None, log (EvOpendir name (Err e)) (set_errno e w))
      | Ok names =>
          let h := fresh (dom (w_dirs w)) in
          (Ret (Some h),
           log (EvOpendir name (Ok h)) (set_dirs (<[h := names]> (w_dirs w)) w))
      end
  end.

Definition readdir (dirp : DIRp) : M (option string) :=
  match dirp with
  | None => undefined NullDir
  | Some h => fun w =>
      match w_dirs w !! h with
      | None => (Undefined StaleDir, w)
      | Some [] => (Ret None, log (EvReaddir h None) w)
      | Some (d :: rest) =>
          (Ret (Some d),
           log (EvReaddir h (Some d)) (set_dirs (<[h := rest]> (w_dirs w)) w))
      end
  end.

Definition closedir (dirp : DIRp) : M Z :=
  match dirp with
  | None => undefined NullDir
  | Some h => fun w =>
      match w_dirs w !! h with
      | None => (Undefined StaleDir, w)
      | Some _ => (Ret 0, log (EvClosedir h) (set_dirs (delete h (w_dirs w)) w))
      end
  end.

(** [open], [close], [unlink]: the backend's answer, logged; [-1] and
    [errno] on failure.  Line 47 passes no mode to [open]; the permissions
    of the new file are not modelled. *)
Definition c_open (path : cptr) (flags : Z) : M Z :=
  match path with
  | None => undefined NullString
  | Some path => fun w =>
      let '(r, s) := os_open (w_fs w) path flags in
      (Ret (c_ret id r), log (EvOpen path flags r) (note_errno r (set_fs s w)))
  end.

Definition c_close (fd : Z) : M Z := fun w =>
  let '(r, s) := os_close (w_fs w) fd in
  (Ret (c_ret (fun _ => 0) r), log (EvClose fd r) (note_errno r (set_fs s w))).

Definition c_unlink (path : cptr) : M Z :=
  match path with
  | None => undefined NullString
  | Some path => fun w =>
      let '(r, s) := os_unlink (w_fs w) path in
      (Ret (c_ret (fun _ => 0) r),
       log (EvUnlink path r) (note_errno r (set_fs s w)))
  end.

(** ** The program *)

(** [eh]: lines 17-23. *)
Definition eh (msg : string) (v : Z) : M Z :=
  if v =? -1 then perror msg;; c_exit 1 else mret v.

(** The loop of lines 33-38, [ec] being the value of the variable on entry.
    Each turn reads one entry; [budget] bounds the number of turns. *)
Fixpoint scan (budget : nat) (dirp : DIRp) (fname : cptr) (ec : Z) : M Z :=
  match budget with
  | O => fun w => (Budget, w)
  | S k =>
      ep ← readdir dirp;
      match ep with
      | None => mret ec
      | Some d_name =>
          c ← c_strcmp (Some d_name) fname;
          if c =? 0 then mret 0 else scan k dirp fname ec
      end
  end.

(** Names a stream has still to deliver. *)
Definition pending (dirp : DIRp) (w : world) : nat :=
  match dirp with
  | Some h => match w_dirs w !! h with Some l => length l | None => O end
  | None => O
  end.

(** The loop with a budget of one turn per pending name and one for the
    read that meets the end of the stream. *)
Definition scan_dir (dirp : DIRp) (fname : cptr) (ec : Z) : M Z := fun w =>
  scan (S (pending dirp w)) dirp fname ec w.

(** Lines 26-27: the pointer to the base name and the copy of the parent
    directory's name, the latter in a fresh heap block. *)
Definition split_path (file_path : cptr) : M (cptr * cptr) :=
  sep ← c_strrchr file_path "/";
  fname ← ptr_succ sep;
  n ← ptr_diff fname file_path;
  basedir ← strndup file_path n;
  mret (basedir, fname).

(** [lookup_file]: lines 25-42. *)
Definition lookup_file (file_path : cptr) : M Z :=
  '(basedir, fname) ← split_path file_path;
  namelen ← c_strlen fname;
  dirp ← opendir basedir;
  free basedir;;
  let ec := ENOENT in
  ec ← scan_dir dirp fname ec;
  closedir dirp;;
  mret ec.

(** [argv[i]]: the [i]-th string, the null pointer at [argv[argc]]. *)
Definition argv_get (argv : list string) (i : nat) : M cptr :=
  match argv !! i with
  | Some s => mret (Some s)
  | None => if (i =? length argv)%nat then mret None else undefined ArgvBounds
  end.

(** The expressions asserted at lines 46 and 51, and at line 49. *)
Definition line46 : string := "lookup_file(argv[1]) == ENOENT".
Definition line49 : string := "lookup_file(argv[1]) == 0".

(** [main]: lines 44-54. [assert] is live: the file's compile command
    does not define [NDEBUG]. *)
Definition main (argc : Z) (argv : list string) : M Z :=
  a ← argv_get argv 1;
  r ← lookup_file a;
  c_assert line46 (r =? ENOENT);;
  a ← argv_get argv 1;
  fd ← c_open a (Z.lor O_RDWR O_CREAT);
  eh "open" fd;;
  c_close fd;;
  a ← argv_get argv 1;
  r ← lookup_file a;
  c_assert line49 (r =? 0);;
  a ← argv_get argv 1;
  u ← c_unlink a;
  eh "unlink" u;;
  a ← argv_get argv 1;
  r ← lookup_file a;
  c_assert line46 (r =? ENOENT);;
  mret 0.

(** A run of the process: [main] on the argument vector; returning from
    [main] is [exit] with the value returned. *)
Definition run (argv : list string) (w : world) : outcome Z * world :=
  match main (Z.of_nat (length argv)) argv w with
  | (Ret v, w') => (Exited v, w')
  | other => other
  end.

End Program.

(** ** Vocabulary of the properties *)

(** The split at the last separator: the parent directory's name, with its
    closing separator, and the base name. *)
Definition parent_and_name (path : string) : option (string * string) :=
  match strrchr path "/" with
  | Some (String _ name) =>
      Some (str_take (String.length path - String.length name) path, name)
  | _ => None
  end.

Definition has_sep (path : string) : Prop :=
  In "/"%char (list_ascii_of_string path).

(** The reads of a scan of the names [l] for [fname] on the stream [h]: one
    per name, in order, up to and including the first name equal to
    [fname]; with no such name, a last read that meets the end. *)
Fixpoint reads (h : nat) (fname : string) (l : list string) : list event :=
  match l with
  | [] => [EvReaddir h None]
  | d :: rest =>
      EvReaddir h (Some d) :: if decide (d = fname) then [] else reads h fname rest
  end.

(** Calls that only read directories. *)
Definition dir_event (e : event) : Prop :=
  match e with
  | EvOpendir _ _ | EvReaddir _ _ | EvClosedir _ => True
  | _ => False
  end.

(** Calls that can change the backend. *)
Definition is_change (e : event) : bool :=
  match e with
  | EvOpen _ _ _ | EvClose _ _ | EvUnlink _ _ => true
  | _ => false
  end.

(** A call that failed. *)
Definition failed_call (e : event) : Prop :=
  match e with
  | EvOpendir _ (Err _) | EvOpen _ _ (Err _) | EvClose _ (Err _)
  | EvUnlink _ (Err _) => True
  | _ => False
  end.


(** Termination with a status other than 0: [exit] with such a status, or
    the abort signal. *)
Definition nonzero_status (o : outcome Z) : Prop :=
  match o with
  | Exited n => n <> 0
  | Aborted => True
  | _ => False
  end.

Section Observations.
Context {B : Backend}.

(** [w] with the events [evs] added to its log. *)
Definition logs (evs : list event) (w : world) : world :=
  World (w_fs w) (w_errno w) (w_stderr w) (w_heap w) (w_dirs w)
    (w_trace w ++ evs).

(** The events logged between [w] and a later [w']. *)
Definition emitted (w w' : world) : list event :=
  drop (length (w_trace w)) (w_trace w').

(** The flags of the call of line 47. *)
Definition create_flags : Z := Z.lor O_RDWR O_CREAT.

(** The stages of the driver on the path [a], from the world [w] at the
    start to the world reached: the first lookup gave [ENOENT]; the file was
    then created and [close] called on its descriptor; the second lookup
    then gave 0; the file was then unlinked; the third lookup then gave
    [ENOENT]. *)
Definition absent1 (a : cptr) (w w1 : world) : Prop :=
  lookup_file a w = (Ret ENOENT, w1).

Definition created (a : cptr) (w w3 : world) : Prop :=
  exists w1 fd w2 c,
    absent1 a w w1 /\
    c_open a create_flags w1 = (Ret fd, w2) /\ fd <> -1 /\
    c_close fd w2 = (Ret c, w3).

Definition present (a : cptr) (w w4 : world) : Prop :=
  exists w3, created a w w3 /\ lookup_file a w3 = (Ret 0, w4).

Definition deleted (a : cptr) (w w5 : world) : Prop :=
  exists w4 u,
    present a w w4 /\ c_unlink a w4 = (Ret u, w5) /\ u <> -1.

Definition passes (a : cptr) (w w' : world) : Prop :=
  exists w5, deleted a w w5 /\ lookup_file a w5 = (Ret ENOENT, w').


(** The ways a run on the path [a] from the world [w] can end. *)
Inductive ends (a : cptr) (w : world) : outcome Z * world -> Prop :=
| ends_undef1 u w1 :
    lookup_file a w = (Undefined u, w1) ->
    ends a w (Undefined u, w1)
| ends_abort1 v w1 :
    lookup_file a w = (Ret v, w1) -> v <> ENOENT ->
    ends a w (Aborted, put_stderr (assert_line line46) w1)
| ends_open w1 w2 :
    absent1 a w w1 -> c_open a create_flags w1 = (Ret (-1), w2) ->
    ends a w (Exited 1, put_stderr (perror_line "open" (w_errno w2)) w2)
| ends_undef2 w3 u w4 :
    created a w w3 -> lookup_file a w3 = (Undefined u, w4) ->
    ends a w (Undefined u, w4)
| ends_abort2 w3 v w4 :
    created a w w3 -> lookup_file a w3 = (Ret v, w4) -> v <> 0 ->
    ends a w (Aborted, put_stderr (assert_line line49) w4)
| ends_unlink w4 w5 :
    present a w w4 -> c_unlink a w4 = (Ret (-1), w5) ->
    ends a w (Exited 1, put_stderr (perror_line "unlink" (w_errno w5)) w5)
| ends_undef3 w5 u w6 :
    deleted a w w5 -> lookup_file a w5 = (Undefined u, w6) ->
    ends a w (Undefined u, w6)
| ends_abort3 w5 v w6 :
    deleted a w w5 -> lookup_file a w5 = (Ret v, w6) -> v <> ENOENT ->
    ends a w (Aborted, put_stderr (assert_line line46) w6)
| ends_pass w' :
    passes a w w' ->
    ends a w (Exited 0, w').

End Observations.

(** ** Vocabulary for whole runs *)

(** The calls a run on [path] is entitled to: directory reads, [opendir]
    only of the parent of [path]; [open] of [path] with the flags of line
    47; [close]; [unlink] of [path]. *)
Definition touches (path : string) (e : event) : Prop :=
  match e with
  | EvOpendir d _ => exists name, parent_and_name path = Some (d, name)
  | EvOpen p f _ => p = path /\ f = create_flags
  | EvUnlink p _ => p = path
  | _ => True
  end.

(** The calls of a run that can change the backend, in the order made: none;
    an [open] that gave -1; an [open] that gave a descriptor and [close] on
    that descriptor; these two and an [unlink]. *)
Definition change_shape (path : string) (cs : list event) : Prop :=
  cs = [] \/
  (exists r, c_ret id r = -1 /\ cs = [EvOpen path create_flags r]) \/
  (exists fd rc,
     fd <> -1 /\ cs = [EvOpen path create_flags (Ok fd); EvClose fd rc]) \/
  (exists fd rc ru,
     fd <> -1 /\
     cs = [EvOpen path create_flags (Ok fd); EvClose fd rc; EvUnlink path ru]).

Section Summaries.
Context {B : Backend}.

(** From [w] to [w'] the events [evs], all of them allowed on [path], were
    logged, the calls among them that can change the backend being [cs];
    standard error, heap and open streams are as in [w]. *)
Definition stage (path : string) (w w' : world) (cs : list event) : Prop :=
  exists evs,
    w_trace w' = w_trace w ++ evs /\
    w_stderr w' = w_stderr w /\
    w_heap w' = w_heap w /\
    w_dirs w' = w_dirs w /\
    Forall (touches path) evs /\
    List.filter is_change evs = cs.

(** What a run that ended with [o] has written to standard error: nothing
    with status 0 or on undefined behaviour; with status 1 the name of the
    failed call, a colon, a space, the text of an error and a line feed; on
    abort one message, whose text the library chooses. *)
Definition verdict (o : outcome Z) (lines : list string) : Prop :=
  match o with
  | Exited n =>
      (n = 0 /\ lines = []) \/
      (n = 1 /\
       exists e, lines = ["open: " +:+ os_strerror e +:+ LF] \/
                 lines = ["unlink: " +:+ os_strerror e +:+ LF])
  | Aborted => exists message, lines = [message]
  | Undefined _ => lines = []
  | _ => False
  end.

(** A run on [path] as seen from outside: how it ended, what it wrote to
    standard error, and the calls it made that can change the backend.  The
    message of an abort is whatever the library writes for the assertion. *)
Inductive report (path : string) :
    outcome Z -> list string -> list event -> Prop :=
| rep_undef1 u :
    report path (Undefined u) [] []
| rep_abort1 message :
    report path Aborted [message] []
| rep_open r e :
    c_ret id r = -1 -> (forall e', r = Err e' -> e = e') ->
    report path (Exited 1) ["open: " +:+ os_strerror e +:+ LF]
      [EvOpen path create_flags r]
| rep_undef2 u fd rc :
    fd <> -1 ->
    report path (Undefined u) []
      [EvOpen path create_flags (Ok fd); EvClose fd rc]
| rep_abort2 fd rc message :
    fd <> -1 ->
    report path Aborted [message]
      [EvOpen path create_flags (Ok fd); EvClose fd rc]
| rep_unlink fd rc e :
    fd <> -1 ->
    report path (Exited 1) ["unlink: " +:+ os_strerror e +:+ LF]
      [EvOpen path create_flags (Ok fd); EvClose fd rc; EvUnlink path (Err e)]
| rep_undef3 u fd rc :
    fd <> -1 ->
    report path (Undefined u) []
      [EvOpen path create_flags (Ok fd); EvClose fd rc; EvUnlink path (Ok tt)]
| rep_abort3 fd rc message :
    fd <> -1 ->
    report path Aborted [message]
      [EvOpen path create_flags (Ok fd); EvClose fd rc; EvUnlink path (Ok tt)]
| rep_pass fd rc :
    fd <> -1 ->
    report path (Exited 0) []
      [EvOpen path create_flags (Ok fd); EvClose fd rc; EvUnlink path (Ok tt)].


(** What [lookup_file] comes to, decided by its argument and the backend. *)
Definition lookup_table (a : cptr) (w : world) : outcome Z :=
  match a with
  | None => Undefined NullString
  | Some path =>
      match parent_and_name path with
      | None => Undefined NullArith
      | Some (parent, name) =>
          match os_opendir (w_fs w) parent with
          | Err _ => Undefined NullDir
          | Ok l => Ret (if decide (name ∈ l) then 0 else ENOENT)
          end
      end
  end.

End Summaries.

(** ** A reference backend: a POSIX-like directory tree

    Directories are keyed by their name as [opendir] receives it from
    [lookup_file], closing separator included.  [close_eio] is a device that
    reports a deferred write error when a descriptor is closed;
    [append_only] names the directories in which entries can be made but
    not removed. *)

Record posix_fs : Type := PosixFs {
  dirs : gmap string (list string);
  fds : list Z;
  close_eio : bool;
  append_only : list string
}.

(** The directory and the last component of a path; a path without a
    separator names an entry of the working directory, keyed by the empty
    name. *)
Definition dir_and_name (path : string) : string * string :=
  match parent_and_name path with
  | Some dn => dn
  | None => (EmptyString, path)
  end.

(** The lowest descriptor not in use. *)
Fixpoint lowest_free (budget : nat) (n : Z) (used : list Z) : Z :=
  match budget with
  | O => n
  | S k => if decide (n ∈ used) then lowest_free k (n + 1) used else n
  end.

Definition posix_opendir (s : posix_fs) (name : string) : sysres (list string) :=
  match dirs s !! name with
  | Some l => Ok l
  | None => Err ENOENT
  end.

(** [open]: a missing directory, an empty last component and a component
    longer than [NAME_MAX] are refused; a missing entry is made when
    [O_CREAT] is set. *)
Definition posix_open (s : posix_fs) (path : string) (flags : Z)
  : sysres Z * posix_fs :=
  let '(d, n) := dir_and_name path in
  let fd := lowest_free (length (fds s)) 0 (fds s) in
  match dirs s !! d with
  | None => (Err ENOENT, s)
  | Some l =>
      if decide (n = EmptyString) then (Err EISDIR, s)
      else if decide (NAME_MAX < String.length n)%nat then (Err ENAMETOOLONG, s)
      else if decide (n ∈ l) then
        (Ok fd, PosixFs (dirs s) (fd :: fds s) (close_eio s) (append_only s))
      else if Z.testbit flags 6 then
        (Ok fd,
         PosixFs (<[d := l ++ [n]]> (dirs s)) (fd :: fds s) (close_eio s)
           (append_only s))
      else (Err ENOENT, s)
  end.

Definition posix_close (s : posix_fs) (fd : Z) : sysres unit * posix_fs :=
  if decide (fd ∈ fds s) then
    (if close_eio s then Err EIO else Ok tt,
     PosixFs (dirs s) (filter (fun x => x <> fd) (fds s)) (close_eio s)
       (append_only s))
  else (Err EBADF, s).

(** [unlink]: a missing directory or entry, and an entry of an append-only
    directory, are refused. *)
Definition posix_unlink (s : posix_fs) (path : string) : sysres unit * posix_fs :=
  let '(d, n) := dir_and_name path in
  match dirs s !! d with
  | None => (Err ENOENT, s)
  | Some l =>
      if decide (n ∈ l) then
        if decide (d ∈ append_only s) then (Err EPERM, s)
        else
          (Ok tt,
           PosixFs (<[d := filter (fun x => x <> n) l]> (dirs s)) (fds s)
             (close_eio s) (append_only s))
      else (Err ENOENT, s)
  end.

Definition posix_strerror (e : Z) : string :=
  if e =? ENOENT then "No such file or directory"
  else if e =? EPERM then "Operation not permitted"
  else if e =? EIO then "Input/output error"
  else if e =? EBADF then "Bad file descriptor"
  else if e =? EISDIR then "Is a directory"
  else if e =? ENAMETOOLONG then "File name too long"
  else "Unknown error".

Definition posix : Backend := {|
  fs := posix_fs;
  os_opendir := posix_opendir;
  os_open := posix_open;
  os_close := posix_close;
  os_unlink := posix_unlink;
  os_strerror := posix_strerror
|}.

(** ** A backend with delete markers

    The reference backend together with the paths that were unlinked: a
    path once unlinked is refused by [open], in the manner of a store that
    keeps a marker for every key removed. *)

Definition tomb_open (s : posix_fs * list string) (path : string) (flags : Z)
  : sysres Z * (posix_fs * list string) :=
  if decide (path ∈ s.2) then (Err EIO, s)
  else let '(r, t) := posix_open s.1 path flags in (r, (t, s.2)).

Definition tomb_close (s : posix_fs * list string) (fd : Z)
  : sysres unit * (posix_fs * list string) :=
  let '(r, t) := posix_close s.1 fd in (r, (t, s.2)).

Definition tomb_unlink (s : posix_fs * list string) (path : string)
  : sysres unit * (posix_fs * list string) :=
  match posix_unlink s.1 path with
  | (Ok u, t) => (Ok u, (t, path :: s.2))
  | (Err e, t) => (Err e, (t, s.2))
  end.

Definition tomb : Backend := {|
  fs := posix_fs * list string;
  os_opendir := fun s name => posix_opendir s.1 name;
  os_open := tomb_open;
  os_close := tomb_close;
  os_unlink := tomb_unlink;
  os_strerror := posix_strerror
|}.

(** A process start on the backend state [s]: nothing written, nothing
    allocated, no stream open, nothing logged. *)
Definition boot (s : posix_fs) : @world posix :=
  @World posix s 0 [] O ∅ [].

(** [/tmp/test_dir/] exists and is empty. *)
Definition empty_dir : posix_fs :=
  PosixFs {[ "/tmp/test_dir/"%string := [] ]} [0; 1; 2] false [].

(** [/tmp/test_dir/] holds [sample.txt] among similar names. *)
Definition full_dir : posix_fs :=
  PosixFs {[ "/tmp/test_dir/"%string :=
             ["."; ".."; "sample.tx"; "Sample.txt"; "sample.txt"; "sample.txt~"]%string ]}
    [0; 1; 2] false [].

(** [/tmp/test_dir/] holds only names that resemble [sample.txt]. *)
Definition near_dir : posix_fs :=
  PosixFs {[ "/tmp/test_dir/"%string :=
             ["."; ".."; "sample.tx"; "Sample.txt"; "sample.txt~"; "xsample.txt"]%string ]}
    [0; 1; 2] false [].

(** [full_dir] enumerated in another order, one name twice. *)
Definition shuffled_dir : posix_fs :=
  PosixFs {[ "/tmp/test_dir/"%string :=
             ["sample.txt~"; "sample.txt"; ".."; "Sample.txt"; "."; "sample.tx";
              "sample.txt"]%string ]}
    [0; 1; 2] false [].

(** The empty directory on a device whose [close] fails. *)
Definition eio_dir : posix_fs :=
  PosixFs {[ "/tmp/test_dir/"%string := [] ]} [0; 1; 2] true [].

(** The empty directory, append-only. *)
Definition sealed_dir : posix_fs :=
  PosixFs {[ "/tmp/test_dir/"%string := [] ]} [0; 1; 2] false
    ["/tmp/test_dir/"%string].

(** A process start on the backend with delete markers, none set. *)
Definition tomb_boot (s : posix_fs) : @world tomb :=
  @World tomb (s, []) 0 [] O ∅ [].




Definition sample_argv : list string :=
  ["s3test"; "/tmp/test_dir/sample.txt"]%string.

(** * Properties *)

(** ** Strings *)

Lemma strcmp_refl (a : string) : strcmp a a = 0.
Proof.
  induction a as [|x a IH]; simpl; [reflexivity|].
  rewrite Ascii.eqb_refl. exact IH.
Qed.

Lemma strcmp_eq (a b : string) : strcmp a b = 0 <-> a = b.
Proof.
  split; [|intros ->; apply strcmp_refl].
  revert b. induction a as [|x a IH]; intros [|y b]; simpl; try discriminate.
  - reflexivity.
  - destruct (Ascii.eqb_spec x y) as [->|Hxy].
    + intros H. f_equal. apply IH, H.
    + intros H. exfalso. apply Hxy.
      rewrite <- (ascii_nat_embedding x), <- (ascii_nat_embedding y).
      f_equal. lia.
Qed.

Lemma strcmp_eqb (a b : string) :
  (strcmp a b =? 0) = bool_decide (a = b).
Proof.
  destruct (Z.eqb_spec (strcmp a b) 0) as [H|H].
  - symmetry. apply bool_decide_eq_true. apply strcmp_eq, H.
  - symmetry. apply bool_decide_eq_false. rewrite <- strcmp_eq. exact H.
Qed.

Lemma app_cons_str (x : ascii) (a b : string) :
  String x a +:+ b = String x (a +:+ b).
Proof. reflexivity. Qed.

Lemma app_nil_str (b : string) : EmptyString +:+ b = b.
Proof. reflexivity. Qed.

Lemma str_take_app (pre s : string) :
  str_take (String.length pre) (pre +:+ s) = pre.
Proof.
  induction pre as [|x pre IH].
  - rewrite app_nil_str. destruct s; reflexivity.
  - rewrite app_cons_str. simpl. f_equal. exact IH.
Qed.

Lemma length_app_str (a b : string) :
  String.length (a +:+ b) = (String.length a + String.length b)%nat.
Proof.
  induction a as [|x a IH]; [reflexivity|].
  rewrite app_cons_str. simpl. f_equal. exact IH.
Qed.

Lemma app_assoc_str (a b c : string) : (a +:+ b) +:+ c = a +:+ (b +:+ c).
Proof.
  induction a as [|x a IH]; [reflexivity|].
  rewrite !app_cons_str. f_equal. exact IH.
Qed.

Lemma has_sep_app (a b : string) :
  has_sep (a +:+ b) <-> has_sep a \/ has_sep b.
Proof.
  unfold has_sep. induction a as [|x a IH].
  - rewrite app_nil_str. simpl. tauto.
  - rewrite app_cons_str. simpl. rewrite IH. tauto.
Qed.

(** [strrchr] finds the last separator, when there is one. *)
Lemma strrchr_none (s : string) : strrchr s "/" = None <-> ~ has_sep s.
Proof.
  unfold has_sep. induction s as [|x s IH]; simpl.
  - tauto.
  - destruct (strrchr s "/") as [r|].
    + split; [discriminate|]. intros H. exfalso.
      assert (Some r = None) as E; [|discriminate E]. apply IH. tauto.
    + destruct (Ascii.eqb_spec x "/") as [->|Hx].
      * split; [discriminate|]. intros H. exfalso. apply H. left. reflexivity.
      * split; [|reflexivity]. intros _ [E|E]; [congruence|].
        revert E. apply IH. reflexivity.
Qed.

Lemma strrchr_some (s r : string) :
  strrchr s "/" = Some r ->
  exists pre name,
    r = String "/" name /\ s = pre +:+ r /\ ~ has_sep name.
Proof.
  revert r. induction s as [|x s IH]; simpl; intros r; [discriminate|].
  destruct (strrchr s "/") as [r'|] eqn:E.
  - intros [= <-]. destruct (IH r' eq_refl) as (pre & name & -> & -> & Hn).
    exists (String x pre), name. auto.
  - destruct (Ascii.eqb_spec x "/") as [->|Hx]; [|discriminate].
    intros [= <-]. exists EmptyString, s. split; [reflexivity|].
    split; [reflexivity|]. apply strrchr_none, E.
Qed.

(** The split at the last separator: the two parts give the path back, the
    parent ends in a separator and the base name holds none. *)
Lemma parent_and_name_some (path parent name : string) :
  parent_and_name path = Some (parent, name) ->
  parent +:+ name = path /\ ~ has_sep name /\
  (exists d, parent = d +:+ "/") /\ has_sep path.
Proof.
  unfold parent_and_name. destruct (strrchr path "/") as [r|] eqn:E; [|discriminate].
  destruct (strrchr_some _ _ E) as (pre & nm & -> & -> & Hn).
  intros [= <- <-].
  assert (pre +:+ String "/" nm = (pre +:+ "/") +:+ nm) as Hsplit.
  { rewrite app_assoc_str. reflexivity. }
  assert (str_take (String.length (pre +:+ String "/" nm) - String.length nm)
            (pre +:+ String "/" nm) = pre +:+ "/") as Ht.
  { rewrite Hsplit at 2. rewrite <- str_take_app with (s := nm). f_equal.
    rewrite !length_app_str. simpl. lia. }
  rewrite Ht. split; [symmetry; exact Hsplit|]. split; [exact Hn|].
  split; [exists pre; reflexivity|].
  apply has_sep_app. right. left. reflexivity.
Qed.

Lemma parent_and_name_sep (path : string) :
  has_sep path -> exists parent name, parent_and_name path = Some (parent, name).
Proof.
  intros H. unfold parent_and_name.
  destruct (strrchr path "/") as [r|] eqn:E.
  - destruct (strrchr_some _ _ E) as (pre & nm & -> & _). eauto.
  - exfalso. apply strrchr_none in E. exact (E H).
Qed.

Lemma parent_and_name_none (path : string) :
  parent_and_name path = None <-> ~ has_sep path.
Proof.
  split.
  - intros E H. destruct (parent_and_name_sep _ H) as (p & n & E'). congruence.
  - intros H. destruct (parent_and_name path) as [[p n]|] eqn:E; [|reflexivity].
    exfalso. apply H. apply (parent_and_name_some _ _ _ E).
Qed.

(** ** What the scan reads *)

Lemma reads_found (h : nat) (name : string) (l : list string) :
  name ∈ l ->
  exists pre post,
    l = pre ++ (name :: post) /\ (name ∉ pre) /\
    reads h name l = map (fun d => EvReaddir h (Some d)) (pre ++ [name]).
Proof.
  induction l as [|d rest IH]; intros Hin.
  - inversion Hin.
  - simpl. destruct (decide (d = name)) as [->|Hd].
    + exists [], rest. split; [reflexivity|]. split; [|reflexivity].
      apply not_elem_of_nil.
    + apply elem_of_cons in Hin as [E|Hin]; [congruence|].
      destruct (IH Hin) as (pre & post & -> & Hpre & ->).
      exists (d :: pre), post. split; [reflexivity|]. split; [|reflexivity].
      apply not_elem_of_cons. split; [congruence|exact Hpre].
Qed.

Lemma reads_absent (h : nat) (name : string) (l : list string) :
  name ∉ l ->
  reads h name l = map (fun d => EvReaddir h (Some d)) l ++ [EvReaddir h None].
Proof.
  induction l as [|d rest IH]; intros Hn; [reflexivity|].
  apply not_elem_of_cons in Hn as [Hd Hn]. simpl.
  destruct (decide (d = name)) as [E|_]; [congruence|].
  f_equal. apply IH, Hn.
Qed.

Lemma reads_dir_events (h : nat) (name : string) (l : list string) :
  Forall dir_event (reads h name l).
Proof.
  induction l as [|d rest IH]; simpl.
  - constructor; [exact I|constructor].
  - constructor; [exact I|]. destruct (decide (d = name)); [constructor|exact IH].
Qed.

(** ** The lookup *)

Section Lookup.
Context {B : Backend}.

Lemma emitted_logs (evs : list event) (w : world) : emitted w (logs evs w) = evs.
Proof. unfold emitted, logs; simpl. apply drop_app_length. Qed.

Lemma emitted_app (w w' : world) (evs : list event) :
  w_trace w' = w_trace w ++ evs -> emitted w w' = evs.
Proof. intros E. unfold emitted. rewrite E. apply drop_app_length. Qed.

(** The splitter: a path with a separator is split at the last one, a path
    without makes line 26 add 1 to a null pointer. *)
Lemma split_path_eq (path : string) (w : world) :
  split_path (Some path) w =
  match parent_and_name path with
  | Some (parent, name) =>
      (Ret (Some parent, Some name), set_heap (S (w_heap w)) w)
  | None => (Undefined NullArith, w)
  end.
Proof.
  unfold split_path, parent_and_name, mbind, M_bind, c_strrchr, mret, M_ret.
  destruct (strrchr path "/") as [[|c name]|] eqn:E; try reflexivity.
  destruct (strrchr_some _ _ E) as (pre & name & H & _). discriminate H.
Qed.

(** The loop reads the names in order and stops at the first one equal to
    [fname]; the budget is not used up. *)
Lemma scan_spec (l : list string) :
  forall (k h : nat) (fname : string) (ec : Z) (w : world),
    w_dirs w !! h = Some l -> (length l < k)%nat ->
    exists d',
      scan k (Some h) (Some fname) ec w =
        (Ret (if decide (fname ∈ l) then 0 else ec),
         logs (reads h fname l) (set_dirs d' w)) /\
      is_Some (d' !! h) /\ delete h d' = delete h (w_dirs w).
Proof.
  induction l as [|d rest IH]; intros k h fname ec w Hl Hk;
    (destruct k as [|k]; [simpl in Hk; lia|]).
  - exists (w_dirs w). split; [|split; [rewrite Hl; eauto|reflexivity]].
    simpl. unfold mbind, M_bind, readdir. rewrite Hl.
    destruct w; reflexivity.
  - simpl scan. unfold mbind, M_bind, readdir. rewrite Hl.
    unfold c_strcmp, mret, M_ret. rewrite strcmp_eqb.
    case_bool_decide as Hd.
    + subst d. exists (<[h := rest]> (w_dirs w)).
      split; [|split; [rewrite lookup_insert_eq; eauto|apply delete_insert_eq]].
      rewrite decide_True by (apply list_elem_of_here).
      simpl reads. rewrite decide_True by reflexivity.
      destruct w; reflexivity.
    + set (w1 := log (EvReaddir h (Some d)) (set_dirs (<[h := rest]> (w_dirs w)) w)).
      destruct (IH k h fname ec w1) as (d' & E & Hs & Hdel).
      { simpl. apply lookup_insert_eq. }
      { simpl in Hk. lia. }
      exists d'. split; [|split; [exact Hs|]].
      * rewrite E. simpl reads.
        destruct (decide (d = fname)) as [?|_]; [contradiction|].
        f_equal.
        -- f_equal. destruct (decide (fname ∈ rest)) as [Hin|Hin].
           ++ rewrite decide_True by (apply list_elem_of_further, Hin). reflexivity.
           ++ rewrite decide_False; [reflexivity|].
              intros [E'|E']%elem_of_cons; [congruence|contradiction].
        -- unfold w1, logs, log, set_dirs; simpl. f_equal.
           rewrite <- app_assoc. reflexivity.
      * rewrite Hdel. simpl. apply delete_insert_eq.
Qed.

Lemma lookup_file_null (w : world) :
  lookup_file None w = (Undefined NullString, w).
Proof. reflexivity. Qed.

Lemma lookup_file_nosep (path : string) (w : world) :
  parent_and_name path = None ->
  lookup_file (Some path) w = (Undefined NullArith, w).
Proof.
  intros E. unfold lookup_file, mbind, M_bind. rewrite split_path_eq, E.
  reflexivity.
Qed.

(** A parent directory that does not open: line 33 reads from the null
    stream. *)
Lemma lookup_file_noparent (path parent name : string) (e : Z) (w : world) :
  parent_and_name path = Some (parent, name) ->
  os_opendir (w_fs w) parent = Err e ->
  lookup_file (Some path) w =
    (Undefined NullDir, log (EvOpendir parent (Err e)) (set_errno e w)).
Proof.
  intros E Ho. unfold lookup_file, mbind, M_bind. rewrite split_path_eq, E.
  simpl. rewrite Ho. reflexivity.
Qed.

(** A parent directory that opens with the names [l]. *)
Lemma lookup_file_scan (path parent name : string) (l : list string) (w : world) :
  parent_and_name path = Some (parent, name) ->
  os_opendir (w_fs w) parent = Ok l ->
  lookup_file (Some path) w =
    (Ret (if decide (name ∈ l) then 0 else ENOENT),
     logs (EvOpendir parent (Ok (fresh (dom (w_dirs w))))
             :: reads (fresh (dom (w_dirs w))) name l
             ++ [EvClosedir (fresh (dom (w_dirs w)))]) w).
Proof.
  intros E Ho. unfold lookup_file, mbind, M_bind. rewrite split_path_eq, E.
  simpl. rewrite Ho. set (h := fresh (dom (w_dirs w))).
  assert (w_dirs w !! h = None) as Hfresh.
  { apply not_elem_of_dom. apply is_fresh. }
  unfold scan_dir.
  match goal with |- context [scan ?k (Some h) (Some name) ENOENT ?w1] =>
    destruct (scan_spec l k h name ENOENT w1) as (d' & Es & [r Hr] & Hdel)
  end.
  { simpl. apply lookup_insert_eq. }
  { simpl. rewrite lookup_insert_eq. lia. }
  rewrite Es. simpl. rewrite Hr. unfold mret, M_ret. f_equal.
  simpl in Hdel. rewrite delete_insert_id in Hdel by exact Hfresh.
  unfold logs, log, set_dirs; simpl. rewrite Hdel. destruct w; simpl.
  f_equal. rewrite <- !app_assoc. reflexivity.
Qed.

(** What a lookup leaves as it found it, and what it logs. *)
Lemma lookup_file_frame (a : cptr) (w : world) :
  w_fs (lookup_file a w).2 = w_fs w /\
  w_stderr (lookup_file a w).2 = w_stderr w /\
  w_heap (lookup_file a w).2 = w_heap w /\
  w_dirs (lookup_file a w).2 = w_dirs w /\
  exists evs,
    w_trace (lookup_file a w).2 = w_trace w ++ evs /\
    Forall dir_event evs.
Proof.
  destruct a as [path|].
  2:{ rewrite lookup_file_null. simpl. repeat (split; [reflexivity|]).
      exists []. split; [symmetry; apply app_nil_r|constructor]. }
  destruct (parent_and_name path) as [[parent name]|] eqn:E.
  2:{ rewrite (lookup_file_nosep _ _ E). simpl. repeat (split; [reflexivity|]).
      exists []. split; [symmetry; apply app_nil_r|constructor]. }
  destruct (os_opendir (w_fs w) parent) as [e|l] eqn:Ho.
  - rewrite (lookup_file_noparent _ _ _ _ _ E Ho). simpl.
    repeat (split; [reflexivity|]).
    eexists. split; [reflexivity|]. constructor; [exact I|constructor].
  - rewrite (lookup_file_scan _ _ _ _ _ E Ho). simpl.
    repeat (split; [reflexivity|]).
    eexists. split; [reflexivity|]. constructor; [exact I|].
    apply Forall_app. split; [apply reads_dir_events|].
    constructor; [exact I|constructor].
Qed.

(** A lookup either runs into undefined behaviour or returns 0 or
    [ENOENT], having only added directory reads to the log. *)
Lemma lookup_file_cases (a : cptr) (w : world) :
  (exists u w', lookup_file a w = (Undefined u, w')) \/
  (exists v evs,
     lookup_file a w = (Ret v, logs evs w) /\ Forall dir_event evs /\
     (v = 0 \/ v = ENOENT)).
Proof.
  destruct a as [path|]; [|left; rewrite lookup_file_null; eauto].
  destruct (parent_and_name path) as [[parent name]|] eqn:E.
  2:{ left. rewrite (lookup_file_nosep _ _ E). eauto. }
  destruct (os_opendir (w_fs w) parent) as [e|l] eqn:Ho.
  - left. rewrite (lookup_file_noparent _ _ _ _ _ E Ho). eauto.
  - right. rewrite (lookup_file_scan _ _ _ _ _ E Ho).
    eexists _, _. split; [reflexivity|]. split.
    + constructor; [exact I|]. apply Forall_app.
      split; [apply reads_dir_events|]. constructor; [exact I|constructor].
    + destruct (decide (name ∈ l)); auto.
Qed.

(** [open], [close] and [unlink] return whatever the backend answers. *)
Lemma c_open_eq (path : string) (flags : Z) (w : world) :
  c_open (Some path) flags w =
    (Ret (c_ret id (os_open (w_fs w) path flags).1),
     log (EvOpen path flags (os_open (w_fs w) path flags).1)
       (note_errno (os_open (w_fs w) path flags).1
          (set_fs (os_open (w_fs w) path flags).2 w))).
Proof. unfold c_open. destruct (os_open (w_fs w) path flags); reflexivity. Qed.

Lemma c_close_eq (fd : Z) (w : world) :
  c_close fd w =
    (Ret (c_ret (fun _ => 0) (os_close (w_fs w) fd).1),
     log (EvClose fd (os_close (w_fs w) fd).1)
       (note_errno (os_close (w_fs w) fd).1
          (set_fs (os_close (w_fs w) fd).2 w))).
Proof. unfold c_close. destruct (os_close (w_fs w) fd); reflexivity. Qed.

Lemma c_unlink_eq (path : string) (w : world) :
  c_unlink (Some path) w =
    (Ret (c_ret (fun _ => 0) (os_unlink (w_fs w) path).1),
     log (EvUnlink path (os_unlink (w_fs w) path).1)
       (note_errno (os_unlink (w_fs w) path).1
          (set_fs (os_unlink (w_fs w) path).2 w))).
Proof. unfold c_unlink. destruct (os_unlink (w_fs w) path); reflexivity. Qed.

End Lookup.

Section LookupClaims.
Context {B : Backend}.

(** C7.  A path with at least one separator is split by lines 26-27 at the
    last one: the parent string, which ends in that separator, followed by
    the base name, which holds none, is the path again.  The split changes
    nothing but the heap, where the copy of the parent string lives: backend
    state, [errno], standard error, open streams and the log of calls are as
    before. *)
Theorem split_path_last_separator (path : string) (w : world) :
  has_sep path ->
  exists parent name,
    split_path (Some path) w =
      (Ret (Some parent, Some name), set_heap (S (w_heap w)) w) /\
    parent +:+ name = path /\
    ~ has_sep name /\
    (exists d, parent = d +:+ "/").
Proof.
  intros Hsep. destruct (parent_and_name_sep _ Hsep) as (parent & name & E).
  exists parent, name. rewrite split_path_eq, E.
  destruct (parent_and_name_some _ _ _ E) as (Hcat & Hn & Hd & _).
  auto.
Qed.

(** C2.  For a path with a separator, [lookup_file] splits it into the
    parent and the base name, and its first call is [opendir] on the
    parent.  When it opens, the
    names are read in the order of enumeration and compared with the base
    name byte for byte: the result is 0 exactly when some name is equal to
    the base name, the reads then stopping at the first such name, and
    [ENOENT] otherwise, after every name and the end of the stream have
    been read.  A directory none of whose names equals the base name (though
    some be a prefix, a suffix or a case variant of it) gives [ENOENT]. *)
Theorem lookup_file_exact_match (path : string) (w : world) :
  has_sep path ->
  exists parent name,
    parent_and_name path = Some (parent, name) /\
    parent +:+ name = path /\ ~ has_sep name /\
    (exists r,
       head (emitted w (lookup_file (Some path) w).2)
         = Some (EvOpendir parent r)) /\
    forall l, os_opendir (w_fs w) parent = Ok l ->
      exists h evs,
        lookup_file (Some path) w =
          (Ret (if decide (name ∈ l) then 0 else ENOENT),
           logs (EvOpendir parent (Ok h) :: evs ++ [EvClosedir h]) w) /\
        (if decide (name ∈ l) then
           exists pre post,
             l = pre ++ (name :: post) /\ (name ∉ pre) /\
             evs = map (fun d => EvReaddir h (Some d)) (pre ++ [name])
         else
           evs = map (fun d => EvReaddir h (Some d)) l ++ [EvReaddir h None]) /\
        ((forall d, d ∈ l -> d <> name) ->
         (lookup_file (Some path) w).1 = Ret ENOENT).
Proof.
  intros Hsep. destruct (parent_and_name_sep _ Hsep) as (parent & name & E).
  exists parent, name.
  destruct (parent_and_name_some _ _ _ E) as (Hcat & Hn & _ & _).
  split; [exact E|]. split; [exact Hcat|]. split; [exact Hn|].
  split.
  { destruct (os_opendir (w_fs w) parent) as [e|l] eqn:Ho.
    - rewrite (lookup_file_noparent _ _ _ _ _ E Ho). eexists.
      rewrite (emitted_app _ _ [EvOpendir parent (Err e)]); reflexivity.
    - rewrite (lookup_file_scan _ _ _ _ _ E Ho). eexists.
      simpl. rewrite emitted_logs. reflexivity. }
  intros l Ho. exists (fresh (dom (w_dirs w))), (reads (fresh (dom (w_dirs w))) name l).
  rewrite (lookup_file_scan _ _ _ _ _ E Ho). split; [reflexivity|].
  destruct (decide (name ∈ l)) as [Hin|Hin].
  - split; [apply reads_found, Hin|]. intros Hall. exfalso.
    exact (Hall name Hin eq_refl).
  - split; [apply reads_absent, Hin|]. reflexivity.
Qed.

(** C8.  When the parent directory opens, [lookup_file] returns, and what
    it returns is 0 or [ENOENT], two different values. *)
Theorem lookup_file_two_valued
    (path parent name : string) (l : list string) (w : world) :
  parent_and_name path = Some (parent, name) ->
  os_opendir (w_fs w) parent = Ok l ->
  ENOENT <> 0 /\
  exists w',
    lookup_file (Some path) w = (Ret 0, w') \/
    lookup_file (Some path) w = (Ret ENOENT, w').
Proof.
  intros E Ho. split; [discriminate|].
  rewrite (lookup_file_scan _ _ _ _ _ E Ho).
  destruct (decide (name ∈ l)); eauto.
Qed.

(** C9.  [lookup_file] is read-only: whatever its argument and however it
    ends, the backend state is the one it started from, nothing is written
    to standard error, every heap block and directory stream it obtained
    has been given back, and the only calls it has made are [opendir],
    [readdir] and [closedir]. *)
Theorem lookup_file_read_only (file_path : cptr) (w : world) :
  w_fs (lookup_file file_path w).2 = w_fs w /\
  w_stderr (lookup_file file_path w).2 = w_stderr w /\
  w_heap (lookup_file file_path w).2 = w_heap w /\
  w_dirs (lookup_file file_path w).2 = w_dirs w /\
  exists evs,
    w_trace (lookup_file file_path w).2 = w_trace w ++ evs /\
    Forall dir_event evs.
Proof. apply lookup_file_frame. Qed.

End LookupClaims.

(** C3.  The parent directory [/missing/] does not exist: [opendir] fails,
    its null result is handed to [readdir] at line 33, and the call never
    reaches [closedir] nor returns. *)
Theorem lookup_file_missing_parent :
  (@lookup_file posix (Some "/missing/sample.txt") (boot empty_dir)).1
    = Undefined NullDir /\
  w_trace (@lookup_file posix (Some "/missing/sample.txt") (boot empty_dir)).2
    = [EvOpendir "/missing/" (Err ENOENT)].
Proof. split; vm_compute; reflexivity. Qed.

(** ** The driver *)

#[local] Arguments lookup_file : simpl never.
#[local] Arguments c_open : simpl never.
#[local] Arguments c_close : simpl never.
#[local] Arguments c_unlink : simpl never.

(** Unfolds the driver down to its calls. *)
Ltac run_open :=
  unfold run, main, argv_get, c_assert, eh, perror, c_exit; simpl;
  unfold mbind, M_bind, mret, M_ret; fold create_flags; simpl.

(** Case analysis on the integer test in the goal. *)
Tactic Notation "case_eqb" "as" ident(H) :=
  match goal with
  | |- context [Z.eqb ?x ?y] => destruct (Z.eqb_spec x y) as [H|H]
  end.

(** Closes a branch in which the run ended otherwise than assumed. *)
Ltac dead := try (simpl; let H := fresh in intros H; discriminate H).

Section Driver.
Context {B : Backend}.

Lemma run_passes (prog path : string) (rest : list string) (w w' : world) :
  run (prog :: path :: rest) w = (Exited 0, w') <-> passes (Some path) w w'.
Proof.
  split.
  - run_open.
    destruct (lookup_file_cases (Some path) w)
      as [(u1 & w1 & L1)|(r1 & ev1 & L1 & _ & _)]; rewrite L1; dead.
    simpl. destruct (Z.eqb_spec r1 ENOENT) as [->|_]; dead.
    pose proof (c_open_eq path create_flags (logs ev1 w)) as O.
    destruct (c_open (Some path) create_flags (logs ev1 w)) as [o2 w2].
    injection O as -> Hw2.
    simpl. case_eqb as Hfd; dead.
    match goal with |- context [c_close ?fd w2] =>
      pose proof (c_close_eq fd w2) as C;
      destruct (c_close fd w2) as [o3 w3] end.
    injection C as -> Hw3.
    destruct (lookup_file_cases (Some path) w3)
      as [(u4 & w4 & L2)|(r2 & ev2 & L2 & _ & _)]; rewrite L2; dead.
    simpl. destruct (Z.eqb_spec r2 0) as [->|_]; dead.
    pose proof (c_unlink_eq path (logs ev2 w3)) as U.
    destruct (c_unlink (Some path) (logs ev2 w3)) as [o5 w5].
    injection U as -> Hw5.
    simpl. case_eqb as Hu; dead.
    destruct (lookup_file_cases (Some path) w5)
      as [(u6 & w6 & L3)|(r3 & ev3 & L3 & _ & _)]; rewrite L3; dead.
    simpl. destruct (Z.eqb_spec r3 ENOENT) as [->|_]; dead.
    intros [= <-].
    exists w5. split; [|exact L3].
    exists (logs ev2 w3), (c_ret (fun _ => 0) (os_unlink (w_fs w3) path).1).
    split; [|split; [rewrite c_unlink_eq, Hw5; reflexivity|exact Hu]].
    exists w3. split; [|exact L2].
    exists (logs ev1 w), (c_ret id (os_open (w_fs w) path create_flags).1), w2.
    eexists. unfold absent1.
    split; [exact L1|]. split; [rewrite c_open_eq, Hw2; reflexivity|].
    split; [exact Hfd|]. rewrite c_close_eq, Hw3. reflexivity.
  - intros (w5 & (w4 & u & (w3 & (w1 & fd & w2 & c & L1 & O & Hfd & C) & L2)
             & U & Hu) & L3).
    unfold absent1 in L1. run_open.
    rewrite L1; simpl. rewrite O.
    destruct (Z.eqb_spec fd (-1)) as [?|_]; [contradiction|].
    rewrite C, L2; simpl. rewrite U.
    destruct (Z.eqb_spec u (-1)) as [?|_]; [contradiction|].
    rewrite L3; simpl. reflexivity.
Qed.

Lemma run_abort1 (prog path : string) (rest : list string)
    (w w1 : world) (v : Z) :
  lookup_file (Some path) w = (Ret v, w1) -> v <> ENOENT ->
  run (prog :: path :: rest) w = (Aborted, put_stderr (assert_line line46) w1).
Proof.
  intros L1 Hv. run_open. rewrite L1; simpl.
  case_eqb as E; [contradiction|reflexivity].
Qed.

Lemma run_exit_open (prog path : string) (rest : list string) (w w1 w2 : world) :
  absent1 (Some path) w w1 ->
  c_open (Some path) create_flags w1 = (Ret (-1), w2) ->
  run (prog :: path :: rest) w =
    (Exited 1, put_stderr (perror_line "open" (w_errno w2)) w2).
Proof.
  unfold absent1. intros L1 O. run_open. rewrite L1; simpl. rewrite O.
  reflexivity.
Qed.

Lemma run_abort2 (prog path : string) (rest : list string)
    (w w3 w4 : world) (v : Z) :
  created (Some path) w w3 ->
  lookup_file (Some path) w3 = (Ret v, w4) -> v <> 0 ->
  run (prog :: path :: rest) w = (Aborted, put_stderr (assert_line line49) w4).
Proof.
  intros (w1 & fd & w2 & c & L1 & O & Hfd & C) L2 Hv.
  unfold absent1 in L1. run_open. rewrite L1; simpl. rewrite O.
  destruct (Z.eqb_spec fd (-1)) as [?|_]; [contradiction|].
  rewrite C, L2; simpl. case_eqb as E; [contradiction|reflexivity].
Qed.

Lemma run_exit_unlink (prog path : string) (rest : list string)
    (w w4 w5 : world) :
  present (Some path) w w4 ->
  c_unlink (Some path) w4 = (Ret (-1), w5) ->
  run (prog :: path :: rest) w =
    (Exited 1, put_stderr (perror_line "unlink" (w_errno w5)) w5).
Proof.
  intros (w3 & (w1 & fd & w2 & c & L1 & O & Hfd & C) & L2) U.
  unfold absent1 in L1. run_open. rewrite L1; simpl. rewrite O.
  destruct (Z.eqb_spec fd (-1)) as [?|_]; [contradiction|].
  rewrite C, L2; simpl. rewrite U. reflexivity.
Qed.

Lemma run_abort3 (prog path : string) (rest : list string)
    (w w5 w6 : world) (v : Z) :
  deleted (Some path) w w5 ->
  lookup_file (Some path) w5 = (Ret v, w6) -> v <> ENOENT ->
  run (prog :: path :: rest) w = (Aborted, put_stderr (assert_line line46) w6).
Proof.
  intros (w4 & u & (w3 & (w1 & fd & w2 & c & L1 & O & Hfd & C) & L2) & U & Hu)
    L3 Hv.
  unfold absent1 in L1. run_open. rewrite L1; simpl. rewrite O.
  destruct (Z.eqb_spec fd (-1)) as [?|_]; [contradiction|].
  rewrite C, L2; simpl. rewrite U.
  destruct (Z.eqb_spec u (-1)) as [?|_]; [contradiction|].
  rewrite L3; simpl. case_eqb as E; [contradiction|reflexivity].
Qed.

(** Every run ends in one of the nine ways of [ends]. *)
Lemma run_ends (prog path : string) (rest : list string) (w : world) :
  ends (Some path) w (run (prog :: path :: rest) w).
Proof.
  destruct (lookup_file_cases (Some path) w)
    as [(u1 & w1 & L1)|(r1 & ev1 & L1 & _ & _)].
  { replace (run (prog :: path :: rest) w) with (@Undefined Z u1, w1).
    - apply ends_undef1, L1.
    - run_open. rewrite L1. reflexivity. }
  destruct (decide (r1 = ENOENT)) as [->|Hr1].
  2:{ rewrite (run_abort1 _ _ _ _ _ _ L1 Hr1). eapply ends_abort1; eauto. }
  destruct (c_open (Some path) create_flags (logs ev1 w)) as [o2 w2] eqn:O.
  pose proof O as O'. rewrite c_open_eq in O'. injection O' as Ho2 _.
  subst o2. set (fd := c_ret id _) in O.
  destruct (decide (fd = -1)) as [Hfd|Hfd].
  { rewrite Hfd in O. rewrite (run_exit_open _ _ _ _ _ _ L1 O).
    eapply ends_open; eauto. }
  destruct (c_close fd w2) as [o3 w3] eqn:C.
  pose proof C as C'. rewrite c_close_eq in C'. injection C' as Ho3 _.
  subst o3. set (c := c_ret _ _) in C.
  assert (created (Some path) w w3) as Hc.
  { exists (logs ev1 w), fd, w2, c. auto. }
  destruct (lookup_file_cases (Some path) w3)
    as [(u4 & w4 & L2)|(r2 & ev2 & L2 & _ & _)].
  { replace (run (prog :: path :: rest) w) with (@Undefined Z u4, w4).
    - eapply ends_undef2; eauto.
    - run_open. rewrite L1; simpl. rewrite O.
      destruct (Z.eqb_spec fd (-1)) as [?|_]; [contradiction|].
      rewrite C, L2. reflexivity. }
  destruct (decide (r2 = 0)) as [->|Hr2].
  2:{ rewrite (run_abort2 _ _ _ _ _ _ _ Hc L2 Hr2). eapply ends_abort2; eauto. }
  assert (present (Some path) w (logs ev2 w3)) as Hp by (exists w3; auto).
  destruct (c_unlink (Some path) (logs ev2 w3)) as [o5 w5] eqn:U.
  pose proof U as U'. rewrite c_unlink_eq in U'. injection U' as Ho5 _.
  subst o5. set (u := c_ret _ _) in U.
  destruct (decide (u = -1)) as [Hu|Hu].
  { rewrite Hu in U. rewrite (run_exit_unlink _ _ _ _ _ _ Hp U).
    eapply ends_unlink; eauto. }
  assert (deleted (Some path) w w5) as Hd by (exists (logs ev2 w3), u; auto).
  destruct (lookup_file_cases (Some path) w5)
    as [(u6 & w6 & L3)|(r3 & ev3 & L3 & _ & _)].
  { replace (run (prog :: path :: rest) w) with (@Undefined Z u6, w6).
    - eapply ends_undef3; eauto.
    - run_open. rewrite L1; simpl. rewrite O.
      destruct (Z.eqb_spec fd (-1)) as [?|_]; [contradiction|].
      rewrite C, L2; simpl. rewrite U.
      destruct (Z.eqb_spec u (-1)) as [?|_]; [contradiction|].
      rewrite L3. reflexivity. }
  destruct (decide (r3 = ENOENT)) as [->|Hr3].
  2:{ rewrite (run_abort3 _ _ _ _ _ _ _ Hd L3 Hr3). eapply ends_abort3; eauto. }
  assert (passes (Some path) w (logs ev3 w5)) as Hpass by (exists w5; auto).
  rewrite (proj2 (run_passes prog path rest w _) Hpass).
  apply ends_pass, Hpass.
Qed.

(** *** What the stages leave behind *)
















Lemma emitted_put_stderr (line : string) (w w' : world) :
  emitted w (put_stderr line w') = emitted w w'.
Proof. reflexivity. Qed.




(** C1, as amended.  On [argv[1]] the driver runs the fixed sequence: a
    lookup that must give [ENOENT], the creation of the file, [close] on its
    descriptor, a lookup that must give 0, [unlink], a lookup that must give
    [ENOENT].  The process exits with status 0 exactly when the three
    lookups gave the expected values and neither [open] nor [unlink]
    returned -1; what [close] returns is not looked at.  A lookup that gives
    another value aborts the process, and a failed [open] or [unlink] ends
    it with status 1, in each case in the state the failing step left, with
    one diagnostic line added: no later step has run. *)
Theorem run_fixed_sequence (prog path : string) (rest : list string) (w : world) :
  let argv := prog :: path :: rest in
  let a := Some path in
  (forall w', run argv w = (Exited 0, w') <-> passes a w w') /\
  (forall v w1,
     lookup_file a w = (Ret v, w1) -> v <> ENOENT ->
     run argv w = (Aborted, put_stderr (assert_line line46) w1)) /\
  (forall w1 w2,
     absent1 a w w1 -> c_open a create_flags w1 = (Ret (-1), w2) ->
     run argv w = (Exited 1, put_stderr (perror_line "open" (w_errno w2)) w2)) /\
  (forall w3 v w4,
     created a w w3 -> lookup_file a w3 = (Ret v, w4) -> v <> 0 ->
     run argv w = (Aborted, put_stderr (assert_line line49) w4)) /\
  (forall w4 w5,
     present a w w4 -> c_unlink a w4 = (Ret (-1), w5) ->
     run argv w = (Exited 1, put_stderr (perror_line "unlink" (w_errno w5)) w5)) /\
  (forall w5 v w6,
     deleted a w w5 -> lookup_file a w5 = (Ret v, w6) -> v <> ENOENT ->
     run argv w = (Aborted, put_stderr (assert_line line46) w6)).
Proof.
  intros argv a. unfold argv, a.
  split; [intros w'; apply run_passes|].
  split; [intros v w1; apply run_abort1|].
  split; [intros w1 w2; apply run_exit_open|].
  split; [intros w3 v w4; apply run_abort2|].
  split; [intros w4 w5; apply run_exit_unlink|].
  intros w5 v w6; apply run_abort3.
Qed.


(** C5.  When the parent directory already lists the base name at the
    start, the first lookup gives 0, the assertion of line 46 fails and the
    process is aborted, a termination with a non-zero status.  Up to then it
    has only read the directory: no [open], [close] or [unlink] was called,
    and the state of the backend is the one the run started from. *)
Theorem run_aborts_when_present
    (prog path : string) (rest : list string) (w : world)
    (parent name : string) (l : list string) :
  parent_and_name path = Some (parent, name) ->
  os_opendir (w_fs w) parent = Ok l ->
  name ∈ l ->
  (run (prog :: path :: rest) w).1 = Aborted /\
  nonzero_status (run (prog :: path :: rest) w).1 /\
  Forall dir_event (emitted w (run (prog :: path :: rest) w).2) /\
  w_fs (run (prog :: path :: rest) w).2 = w_fs w.
Proof.
  intros E Ho Hin.
  pose proof (lookup_file_scan _ _ _ _ w E Ho) as L.
  rewrite decide_True in L by exact Hin.
  assert (0 <> ENOENT) as Hv by discriminate.
  rewrite (run_abort1 prog _ rest _ _ _ L Hv). simpl.
  split; [reflexivity|]. split; [exact I|]. split; [|reflexivity].
  rewrite emitted_put_stderr, emitted_logs.
  constructor; [exact I|]. apply Forall_app. split; [apply reads_dir_events|].
  constructor; [exact I|constructor].
Qed.

(** C10.  [main] reads [argv[1]] without looking at [argc].  With at least
    one argument after the program name the read yields a string.  With
    none it yields the null pointer that closes [argv]; the pointer goes to
    [lookup_file], whose first call reads through it, and the run is
    undefined before anything else has happened.  Hence a run free of
    undefined behaviour had [argc >= 2]. *)
Theorem run_needs_argument (argv : list string) (w : world) :
  ((2 <= length argv)%nat ->
   exists path, argv_get argv 1 w = (Ret (Some path), w)) /\
  (length argv = 1%nat ->
   argv_get argv 1 w = (Ret None, w) /\
   lookup_file None w = (Undefined NullString, w) /\
   run argv w = (Undefined NullString, w)) /\
  ((forall u, (run argv w).1 <> Undefined u) -> (2 <= length argv)%nat).
Proof.
  destruct argv as [|prog [|path rest]]; simpl.
  - split; [lia|]. split; [discriminate|].
    intros H. exfalso. apply (H ArgvBounds). reflexivity.
  - split; [lia|]. split; [intros _; repeat split; reflexivity|].
    intros H. exfalso. apply (H NullString). reflexivity.
  - split; [intros _; exists path; reflexivity|].
    split; [discriminate|]. intros _. lia.
Qed.

End Driver.

(** ** Events of a lookup *)

Lemma dir_events_no_change (evs : list event) :
  Forall dir_event evs -> List.filter is_change evs = [].
Proof.
  induction 1 as [|e evs He _ IH]; [reflexivity|].
  destruct e; simpl in *; try contradiction; exact IH.
Qed.

(** C1, as first stated, fails: on a device whose [close] reports an error
    the call of line 48 fails, and the process goes on and exits with
    status 0. *)
Lemma run_close_failure_exits_0 :
  ~ (forall e : event,
       e ∈ w_trace (@run posix sample_argv (boot eio_dir)).2 ->
       failed_call e ->
       nonzero_status (@run posix sample_argv (boot eio_dir)).1).
Proof.
  intros H.
  assert ((@run posix sample_argv (boot eio_dir)).1 = Exited 0) as Ho
    by (vm_compute; reflexivity).
  assert (EvClose 3 (Err EIO) ∈ w_trace (@run posix sample_argv (boot eio_dir)).2)
    as Hin.
  { assert (w_trace (@run posix sample_argv (boot eio_dir)).2 !! 4%nat
            = Some (EvClose 3 (Err EIO))) as Hl by (vm_compute; reflexivity).
    apply list_elem_of_lookup. eauto. }
  specialize (H _ Hin I). rewrite Ho in H. apply H. reflexivity.
Qed.

Lemma run_fixed_sequence_witness :
  passes (Some "/tmp/test_dir/sample.txt"%string) (boot empty_dir)
    (@run posix sample_argv (boot empty_dir)).2.
Proof.
  apply (@run_fixed_sequence posix "s3test" "/tmp/test_dir/sample.txt" []
           (boot empty_dir)).
  vm_compute. reflexivity.
Defined.

(** ** The claims at concrete inputs *)

(** Scenario A: the directory exists and is empty; the run ends with status
    0 and the directory is empty again. *)
Example scenario_a :
  (@run posix sample_argv (boot empty_dir)).1 = Exited 0 /\
  w_fs (@run posix sample_argv (boot empty_dir)).2 = empty_dir.
Proof. split; vm_compute; reflexivity. Qed.

(** Scenario B: the file is already there; the run is aborted. *)
Example scenario_b : (@run posix sample_argv (boot full_dir)).1 = Aborted.
Proof. vm_compute; reflexivity. Qed.

(** Names that only resemble the base name are not taken for it. *)
Example lookup_near_names :
  (@lookup_file posix (Some "/tmp/test_dir/sample.txt") (boot near_dir)).1
    = Ret ENOENT.
Proof. vm_compute; reflexivity. Qed.

Lemma sample_has_sep : has_sep "/tmp/test_dir/sample.txt".
Proof. left. reflexivity. Defined.

Lemma split_path_last_separator_witness :
  has_sep "/tmp/test_dir/sample.txt" /\
  exists parent name,
    @split_path posix (Some "/tmp/test_dir/sample.txt") (boot empty_dir) =
      (Ret (Some parent, Some name), set_heap 1 (boot empty_dir)) /\
    parent +:+ name = "/tmp/test_dir/sample.txt" /\
    ~ has_sep name /\
    (exists d, parent = d +:+ "/").
Proof.
  split; [exact sample_has_sep|].
  exact (@split_path_last_separator posix "/tmp/test_dir/sample.txt"
           (boot empty_dir) sample_has_sep).
Defined.

Lemma lookup_file_exact_match_witness :
  has_sep "/tmp/test_dir/sample.txt" /\
  exists parent name,
    parent_and_name "/tmp/test_dir/sample.txt" = Some (parent, name) /\
    parent +:+ name = "/tmp/test_dir/sample.txt" /\ ~ has_sep name /\
    (exists r,
       head (emitted (boot full_dir)
               (@lookup_file posix (Some "/tmp/test_dir/sample.txt")
                  (boot full_dir)).2)
         = Some (EvOpendir parent r)) /\
    forall l, posix_opendir full_dir parent = Ok l ->
      exists h evs,
        @lookup_file posix (Some "/tmp/test_dir/sample.txt") (boot full_dir) =
          (Ret (if decide (name ∈ l) then 0 else ENOENT),
           logs (EvOpendir parent (Ok h) :: evs ++ [EvClosedir h])
             (boot full_dir)) /\
        (if decide (name ∈ l) then
           exists pre post,
             l = pre ++ (name :: post) /\ (name ∉ pre) /\
             evs = map (fun d => EvReaddir h (Some d)) (pre ++ [name])
         else
           evs = map (fun d => EvReaddir h (Some d)) l ++ [EvReaddir h None]) /\
        ((forall d, d ∈ l -> d <> name) ->
         (@lookup_file posix (Some "/tmp/test_dir/sample.txt")
            (boot full_dir)).1 = Ret ENOENT).
Proof.
  split; [exact sample_has_sep|].
  exact (@lookup_file_exact_match posix "/tmp/test_dir/sample.txt"
           (boot full_dir) sample_has_sep).
Defined.

Lemma lookup_file_two_valued_witness :
  ENOENT <> 0 /\
  exists w',
    @lookup_file posix (Some "/tmp/test_dir/sample.txt") (boot full_dir)
      = (Ret 0, w') \/
    @lookup_file posix (Some "/tmp/test_dir/sample.txt") (boot full_dir)
      = (Ret ENOENT, w').
Proof.
  apply (@lookup_file_two_valued posix "/tmp/test_dir/sample.txt"
           "/tmp/test_dir/" "sample.txt"
           ["."; ".."; "sample.tx"; "Sample.txt"; "sample.txt"; "sample.txt~"]
           (boot full_dir)).
  - vm_compute. reflexivity.
  - vm_compute. reflexivity.
Defined.


(** The lines of the two failures, as written on the reference backend. *)
Example perror_lines :
  w_stderr (@run posix ["s3test"; "/tmp/test_dir/"] (boot empty_dir)).2
    = ["open: Is a directory" +:+ LF] /\
  w_stderr (@run posix sample_argv (boot sealed_dir)).2
    = ["unlink: Operation not permitted" +:+ LF].
Proof. split; vm_compute; reflexivity. Qed.

Lemma run_aborts_when_present_witness :
  (@run posix sample_argv (boot full_dir)).1 = Aborted /\
  nonzero_status (@run posix sample_argv (boot full_dir)).1 /\
  Forall dir_event
    (emitted (boot full_dir) (@run posix sample_argv (boot full_dir)).2) /\
  w_fs (@run posix sample_argv (boot full_dir)).2 = w_fs (boot full_dir).
Proof.
  apply (@run_aborts_when_present posix "s3test" "/tmp/test_dir/sample.txt" []
           (boot full_dir) "/tmp/test_dir/" "sample.txt"
           ["."; ".."; "sample.tx"; "Sample.txt"; "sample.txt"; "sample.txt~"]).
  - vm_compute. reflexivity.
  - vm_compute. reflexivity.
  - do 4 apply list_elem_of_further. apply list_elem_of_here.
Defined.

Lemma run_needs_argument_witness :
  (exists path, @argv_get posix sample_argv 1 (boot empty_dir)
                = (Ret (Some path), boot empty_dir)) /\
  @run posix ["s3test"] (boot empty_dir)
    = (Undefined NullString, boot empty_dir).
Proof.
  split.
  - apply (@run_needs_argument posix sample_argv (boot empty_dir)).
    simpl. lia.
  - apply (@run_needs_argument posix ["s3test"] (boot empty_dir)).
    reflexivity.
Defined.

(** * Further properties *)

(** ** Of the lookup *)

Lemma str_take_all (s : string) : str_take (String.length s) s = s.
Proof. induction s as [|x s IH]; simpl; [reflexivity|]. f_equal. exact IH. Qed.

Lemma strrchr_trailing (d : string) : strrchr (d +:+ "/") "/" = Some "/"%string.
Proof.
  induction d as [|x d IH]; [reflexivity|].
  rewrite app_cons_str. simpl. rewrite IH. reflexivity.
Qed.

Lemma parent_and_name_trailing (d : string) :
  parent_and_name (d +:+ "/") = Some (d +:+ "/", EmptyString).
Proof.
  unfold parent_and_name. rewrite strrchr_trailing. simpl.
  rewrite Nat.sub_0_r, str_take_all. reflexivity.
Qed.

Section LookupMore.
Context {B : Backend}.

Lemma lookup_table_eq (a : cptr) (w : world) :
  (lookup_file a w).1 = lookup_table a w.
Proof.
  destruct a as [path|]; [|reflexivity]. unfold lookup_table.
  destruct (parent_and_name path) as [[parent name]|] eqn:E.
  2:{ rewrite (lookup_file_nosep _ _ E). reflexivity. }
  destruct (os_opendir (w_fs w) parent) as [e|l] eqn:Ho.
  - rewrite (lookup_file_noparent _ _ _ _ _ E Ho). reflexivity.
  - rewrite (lookup_file_scan _ _ _ _ _ E Ho). reflexivity.
Qed.

(** X1.  What [lookup_file] comes to is decided by its argument and the
    backend alone: a null path and a path without separator are undefined
    behaviour (a string function on a null pointer; 1 added to the null
    result of [strrchr]); with a separator, a parent that does not open is
    undefined behaviour ([readdir] on the null stream), and a parent that
    opens gives 0 when it lists the base name and [ENOENT] when it does not.
    The call never ends the process itself and its loop always ends. *)
Theorem lookup_file_outcome (a : cptr) (w : world) :
  (lookup_file a w).1 = lookup_table a w.
Proof.
  destruct a as [path|]; [rewrite lookup_table_eq|]; unfold lookup_table.
  - destruct (parent_and_name path) as [[parent name]|]; [|reflexivity].
    destruct (os_opendir (w_fs w) parent); reflexivity.
  - rewrite lookup_file_null. reflexivity.
Qed.

(** X2.  A path that ends in a separator is split into itself as parent and
    the empty base name: the directory opened is the path itself, and the
    lookup gives [ENOENT] unless that directory lists an empty name. *)
Theorem lookup_file_trailing_separator (d : string) (l : list string) (w : world) :
  os_opendir (w_fs w) (d +:+ "/") = Ok l ->
  parent_and_name (d +:+ "/") = Some (d +:+ "/", EmptyString) /\
  head (emitted w (lookup_file (Some (d +:+ "/")) w).2)
    = Some (EvOpendir (d +:+ "/") (Ok (fresh (dom (w_dirs w))))) /\
  (lookup_file (Some (d +:+ "/")) w).1
    = Ret (if decide (EmptyString ∈ l) then 0 else ENOENT).
Proof.
  intros Ho. pose proof (parent_and_name_trailing d) as E.
  split; [exact E|].
  rewrite (lookup_file_scan _ _ _ _ _ E Ho). simpl.
  rewrite emitted_logs. split; reflexivity.
Qed.

(** X3.  A lookup repeated right after a lookup of the same path comes to
    the same: the first has left nothing behind that the second could
    see. *)
Theorem lookup_file_repeat (a : cptr) (w : world) :
  (lookup_file a (lookup_file a w).2).1 = (lookup_file a w).1.
Proof.
  rewrite !lookup_table_eq.
  destruct (lookup_file_frame a w) as (Hfs & _).
  unfold lookup_table. rewrite Hfs. reflexivity.
Qed.

(** X4.  The order in which the backend enumerates a directory, and how
    often it delivers a name, do not matter to the result: two enumerations
    with the same names give the same result. *)
Theorem lookup_file_order_free
    (path parent name : string) (l l' : list string) (w w' : world) :
  parent_and_name path = Some (parent, name) ->
  os_opendir (w_fs w) parent = Ok l ->
  os_opendir (w_fs w') parent = Ok l' ->
  (forall d, d ∈ l <-> d ∈ l') ->
  (lookup_file (Some path) w).1 = (lookup_file (Some path) w').1.
Proof.
  intros E Ho Ho' Hsame. rewrite !lookup_table_eq. unfold lookup_table.
  rewrite E, Ho, Ho'.
  destruct (decide (name ∈ l)) as [Hin|Hin];
    destruct (decide (name ∈ l')) as [Hin'|Hin']; try reflexivity.
  - exfalso. apply Hin', Hsame, Hin.
  - exfalso. apply Hin, Hsame, Hin'.
Qed.

End LookupMore.

Lemma lookup_file_trailing_separator_witness :
  parent_and_name "/tmp/test_dir/" = Some ("/tmp/test_dir/"%string, EmptyString) /\
  head (emitted (boot empty_dir)
          (@lookup_file posix (Some "/tmp/test_dir/") (boot empty_dir)).2)
    = Some (EvOpendir "/tmp/test_dir/" (Ok (fresh (dom (w_dirs (boot empty_dir)))))) /\
  (@lookup_file posix (Some "/tmp/test_dir/") (boot empty_dir)).1
    = Ret (if decide (EmptyString ∈ ([] : list string)) then 0 else ENOENT).
Proof.
  apply (@lookup_file_trailing_separator posix "/tmp/test_dir" [] (boot empty_dir)).
  vm_compute. reflexivity.
Defined.

Lemma lookup_file_order_free_witness :
  (@lookup_file posix (Some "/tmp/test_dir/sample.txt") (boot full_dir)).1 =
  (@lookup_file posix (Some "/tmp/test_dir/sample.txt") (boot shuffled_dir)).1.
Proof.
  apply (@lookup_file_order_free posix "/tmp/test_dir/sample.txt"
           "/tmp/test_dir/" "sample.txt"
           ["."; ".."; "sample.tx"; "Sample.txt"; "sample.txt"; "sample.txt~"]
           ["sample.txt~"; "sample.txt"; ".."; "Sample.txt"; "."; "sample.tx";
            "sample.txt"]
           (boot full_dir) (boot shuffled_dir)).
  - vm_compute. reflexivity.
  - vm_compute. reflexivity.
  - vm_compute. reflexivity.
  - intros d. rewrite !elem_of_cons, !elem_of_nil. tauto.
Defined.

(** ** Of whole runs *)

Lemma reads_touches (path : string) (h : nat) (name : string) (l : list string) :
  Forall (touches path) (reads h name l).
Proof.
  induction l as [|d rest IH]; simpl.
  - constructor; [exact I|constructor].
  - constructor; [exact I|]. destruct (decide (d = name)); [constructor|exact IH].
Qed.

Section RunMore.
Context {B : Backend}.

Lemma stage_trans (path : string) (w w1 w2 : world) (c1 c2 : list event) :
  stage path w w1 c1 -> stage path w1 w2 c2 -> stage path w w2 (c1 ++ c2).
Proof.
  intros (e1 & T1 & S1 & H1 & D1 & F1 & C1) (e2 & T2 & S2 & H2 & D2 & F2 & C2).
  exists (e1 ++ e2). split; [rewrite T2, T1; symmetry; apply app_assoc|].
  split; [congruence|]. split; [congruence|]. split; [congruence|].
  split; [apply Forall_app; auto|]. rewrite List.filter_app. congruence.
Qed.

Lemma lookup_stage (path : string) (w w' : world) (o : outcome Z) :
  lookup_file (Some path) w = (o, w') -> stage path w w' [].
Proof.
  destruct (parent_and_name path) as [[parent name]|] eqn:E.
  2:{ rewrite (lookup_file_nosep _ _ E). intros [= <- <-]. exists [].
      split; [symmetry; apply app_nil_r|]. repeat (split; [reflexivity|]).
      split; [constructor|reflexivity]. }
  destruct (os_opendir (w_fs w) parent) as [e|l] eqn:Ho.
  - rewrite (lookup_file_noparent _ _ _ _ _ E Ho). intros [= <- <-].
    exists [EvOpendir parent (Err e)]. repeat (split; [reflexivity|]).
    split; [|reflexivity]. constructor; [exists name; exact E|constructor].
  - rewrite (lookup_file_scan _ _ _ _ _ E Ho). intros [= <- <-].
    eexists. repeat (split; [reflexivity|]). split.
    + constructor; [exists name; exact E|]. apply Forall_app.
      split; [apply reads_touches|]. constructor; [exact I|constructor].
    + apply dir_events_no_change. constructor; [exact I|]. apply Forall_app.
      split; [apply reads_dir_events|]. constructor; [exact I|constructor].
Qed.

Lemma open_stage (path : string) (v : Z) (w w' : world) :
  c_open (Some path) create_flags w = (Ret v, w') ->
  exists r, v = c_ret id r /\ stage path w w' [EvOpen path create_flags r].
Proof.
  rewrite c_open_eq. intros [= <- <-].
  destruct (os_open (w_fs w) path create_flags) as [r s]; simpl.
  exists r. split; [reflexivity|]. exists [EvOpen path create_flags r].
  destruct r; simpl; repeat (split; [reflexivity|]);
    (split; [|reflexivity]); (constructor; [split; reflexivity|constructor]).
Qed.

Lemma close_stage (path : string) (fd c : Z) (w w' : world) :
  c_close fd w = (Ret c, w') -> exists rc, stage path w w' [EvClose fd rc].
Proof.
  rewrite c_close_eq. intros [= <- <-].
  destruct (os_close (w_fs w) fd) as [r s]; simpl.
  exists r, [EvClose fd r].
  destruct r; simpl; repeat (split; [reflexivity|]);
    (split; [|reflexivity]); (constructor; [exact I|constructor]).
Qed.

Lemma unlink_stage (path : string) (u : Z) (w w' : world) :
  c_unlink (Some path) w = (Ret u, w') ->
  exists ru, u = c_ret (fun _ => 0) ru /\ stage path w w' [EvUnlink path ru].
Proof.
  rewrite c_unlink_eq. intros [= <- <-].
  destruct (os_unlink (w_fs w) path) as [r s]; simpl.
  exists r. split; [reflexivity|]. exists [EvUnlink path r].
  destruct r; simpl; repeat (split; [reflexivity|]);
    (split; [|reflexivity]); (constructor; [reflexivity|constructor]).
Qed.

Lemma created_stage (path : string) (w w3 : world) :
  created (Some path) w w3 ->
  exists fd rc,
    fd <> -1 /\
    stage path w w3 [EvOpen path create_flags (Ok fd); EvClose fd rc].
Proof.
  intros (w1 & fd & w2 & c & L1 & O & Hfd & C).
  destruct (open_stage _ _ _ _ O) as (r & Hr & So).
  destruct (close_stage path _ _ _ _ C) as (rc & Sc).
  destruct r as [e|fd']; simpl in Hr; [contradiction|]. subst fd'.
  exists fd, rc. split; [exact Hfd|].
  apply (stage_trans _ _ _ _ [] _ (lookup_stage _ _ _ _ L1)).
  apply (stage_trans _ _ _ _ [_] [_] So Sc).
Qed.

Lemma present_stage (path : string) (w w4 : world) :
  present (Some path) w w4 ->
  exists fd rc,
    fd <> -1 /\
    stage path w w4 [EvOpen path create_flags (Ok fd); EvClose fd rc].
Proof.
  intros (w3 & Hc & L2). destruct (created_stage _ _ _ Hc) as (fd & rc & Hfd & S).
  exists fd, rc. split; [exact Hfd|].
  rewrite <- (app_nil_r [_; _]).
  apply (stage_trans _ _ _ _ _ _ S (lookup_stage _ _ _ _ L2)).
Qed.

Lemma deleted_stage (path : string) (w w5 : world) :
  deleted (Some path) w w5 ->
  exists fd rc ru,
    fd <> -1 /\
    stage path w w5
      [EvOpen path create_flags (Ok fd); EvClose fd rc; EvUnlink path ru].
Proof.
  intros (w4 & u & Hp & U & Hu).
  destruct (present_stage _ _ _ Hp) as (fd & rc & Hfd & S).
  destruct (unlink_stage _ _ _ _ U) as (ru & _ & Su).
  exists fd, rc, ru. split; [exact Hfd|].
  apply (stage_trans _ _ _ _ [_; _] [_] S Su).
Qed.

(** The whole of a run on [path]: what was logged, what was written, what
    is left. *)
Lemma run_summary (prog path : string) (rest : list string) (w : world) :
  exists evs lines,
    w_trace (run (prog :: path :: rest) w).2 = w_trace w ++ evs /\
    w_stderr (run (prog :: path :: rest) w).2 = w_stderr w ++ lines /\
    w_heap (run (prog :: path :: rest) w).2 = w_heap w /\
    w_dirs (run (prog :: path :: rest) w).2 = w_dirs w /\
    Forall (touches path) evs /\
    change_shape path (List.filter is_change evs) /\
    verdict (run (prog :: path :: rest) w).1 lines.
Proof.
  assert (forall (o : outcome Z) (wk : world) (cs : list event) (lines : list string),
            stage path w wk cs -> change_shape path cs -> verdict o lines ->
            forall wf, w_trace wf = w_trace wk -> w_heap wf = w_heap wk ->
              w_dirs wf = w_dirs wk -> w_stderr wf = w_stderr wk ++ lines ->
            exists evs lines,
              w_trace wf = w_trace w ++ evs /\
              w_stderr wf = w_stderr w ++ lines /\
              w_heap wf = w_heap w /\ w_dirs wf = w_dirs w /\
              Forall (touches path) evs /\
              change_shape path (List.filter is_change evs) /\
              verdict o lines) as Hfin.
  { intros o wk cs lines (evs & T & S & H & D & F & C) Hcs Hv wf T' H' D' S'.
    exists evs, lines. rewrite T', S', H', D', T, S, H, D, C. auto 10. }
  pose proof (run_ends prog path rest w) as He.
  destruct (run (prog :: path :: rest) w) as [o wf]. simpl.
  inversion He as [u w1 L|v w1 L Hv|w1 w2 Ha O|w3 u w4 Hc L|w3 v w4 Hc L Hv
                  |w4 w5 Hp U|w5 u w6 Hd L|w5 v w6 Hd L Hv|w' Hpass]; subst.
  - eapply (Hfin _ wf [] []); try reflexivity;
      [eapply lookup_stage, L|left; reflexivity|symmetry; apply app_nil_r].
  - eapply (Hfin _ w1 [] [assert_line line46]); try reflexivity;
      [eapply lookup_stage, L|left; reflexivity|eexists; reflexivity].
  - destruct (open_stage _ _ _ _ O) as (r & Hr & So).
    eapply (Hfin _ w2 ([] ++ [EvOpen path create_flags r])
              [perror_line "open" (w_errno w2)]); try reflexivity.
    + eapply stage_trans; [eapply lookup_stage, Ha|exact So].
    + right; left. exists r. split; [symmetry; exact Hr|reflexivity].
    + right. split; [reflexivity|]. eexists. left. reflexivity.
  - destruct (created_stage _ _ _ Hc) as (fd & rc & Hfd & S).
    eapply (Hfin _ wf ([_; _] ++ []) []); try reflexivity.
    + eapply stage_trans; [exact S|eapply lookup_stage, L].
    + right; right; left. exists fd, rc. split; [exact Hfd|reflexivity].
    + symmetry; apply app_nil_r.
  - destruct (created_stage _ _ _ Hc) as (fd & rc & Hfd & S).
    eapply (Hfin _ w4 ([_; _] ++ []) [assert_line line49]); try reflexivity.
    + eapply stage_trans; [exact S|eapply lookup_stage, L].
    + right; right; left. exists fd, rc. split; [exact Hfd|reflexivity].
    + eexists; reflexivity.
  - destruct (present_stage _ _ _ Hp) as (fd & rc & Hfd & S).
    destruct (unlink_stage _ _ _ _ U) as (ru & _ & Su).
    eapply (Hfin _ w5 ([_; _] ++ [_]) [perror_line "unlink" (w_errno w5)]);
      try reflexivity.
    + eapply stage_trans; [exact S|exact Su].
    + right; right; right. exists fd, rc, ru. split; [exact Hfd|reflexivity].
    + right. split; [reflexivity|]. eexists. right. reflexivity.
  - destruct (deleted_stage _ _ _ Hd) as (fd & rc & ru & Hfd & S).
    eapply (Hfin _ wf ([_; _; _] ++ []) []); try reflexivity.
    + eapply stage_trans; [exact S|eapply lookup_stage, L].
    + right; right; right. exists fd, rc, ru. split; [exact Hfd|reflexivity].
    + symmetry; apply app_nil_r.
  - destruct (deleted_stage _ _ _ Hd) as (fd & rc & ru & Hfd & S).
    eapply (Hfin _ w6 ([_; _; _] ++ []) [assert_line line46]); try reflexivity.
    + eapply stage_trans; [exact S|eapply lookup_stage, L].
    + right; right; right. exists fd, rc, ru. split; [exact Hfd|reflexivity].
    + eexists; reflexivity.
  - destruct Hpass as (w5 & Hd & L).
    destruct (deleted_stage _ _ _ Hd) as (fd & rc & ru & Hfd & S).
    eapply (Hfin _ wf ([_; _; _] ++ []) []); try reflexivity.
    + eapply stage_trans; [exact S|eapply lookup_stage, L].
    + right; right; right. exists fd, rc, ru. split; [exact Hfd|reflexivity].
    + left. split; reflexivity.
    + symmetry; apply app_nil_r.
Qed.

Lemma run_undef1 (prog path : string) (rest : list string)
    (w w1 : world) (u : ub) :
  lookup_file (Some path) w = (Undefined u, w1) ->
  run (prog :: path :: rest) w = (Undefined u, w1).
Proof. intros L. run_open. rewrite L. reflexivity. Qed.

Lemma lookup_ret_inv (path : string) (v : Z) (w w1 : world) :
  lookup_file (Some path) w = (Ret v, w1) ->
  exists parent name l,
    parent_and_name path = Some (parent, name) /\
    os_opendir (w_fs w) parent = Ok l /\
    v = (if decide (name ∈ l) then 0 else ENOENT) /\
    w_fs w1 = w_fs w.
Proof.
  destruct (parent_and_name path) as [[parent name]|] eqn:E.
  2:{ rewrite (lookup_file_nosep _ _ E). discriminate. }
  destruct (os_opendir (w_fs w) parent) as [e|l] eqn:Ho.
  { rewrite (lookup_file_noparent _ _ _ _ _ E Ho). discriminate. }
  rewrite (lookup_file_scan _ _ _ _ _ E Ho). intros [= <- <-].
  exists parent, name, l. auto.
Qed.

(** X5.  Every run, whatever its argument vector, ends in one of four ways
    and has written accordingly: status 0 and nothing written; status 1 and
    one line, the name [open] or [unlink], a colon, a space, the text of an
    error and a line feed; abort and one message; undefined behaviour and
    nothing written.  No other exit status occurs and the loop of the lookup
    never fails to end. *)
Theorem run_output (argv : list string) (w : world) :
  exists lines,
    w_stderr (run argv w).2 = w_stderr w ++ lines /\
    verdict (run argv w).1 lines.
Proof.
  destruct argv as [|prog [|path rest]].
  - exists []. split; [symmetry; apply app_nil_r|reflexivity].
  - exists []. split; [symmetry; apply app_nil_r|reflexivity].
  - destruct (run_summary prog path rest w)
      as (evs & lines & _ & Hs & _ & _ & _ & _ & Hv). eauto.
Qed.

(** X6.  A run that ends, by [exit], by returning from [main] or by
    abort, has not leaked: every heap block obtained by [strndup] has been
    freed and every directory stream that was opened has been closed. *)
Theorem run_no_leak (argv : list string) (w : world) :
  (forall u, (run argv w).1 <> Undefined u) ->
  w_heap (run argv w).2 = w_heap w /\ w_dirs (run argv w).2 = w_dirs w.
Proof.
  intros _. destruct argv as [|prog [|path rest]]; [split; reflexivity..|].
  destruct (run_summary prog path rest w)
    as (evs & lines & _ & _ & Hh & Hd & _). auto.
Qed.

(** X7.  A run touches nothing but its argument: every [opendir] is of
    the parent directory of [argv[1]], every [open] is of [argv[1]] with the
    flags [O_RDWR | O_CREAT], and every [unlink] is of [argv[1]]. *)
Theorem run_touches (prog path : string) (rest : list string) (w : world) :
  Forall (touches path) (emitted w (run (prog :: path :: rest) w).2).
Proof.
  destruct (run_summary prog path rest w)
    as (evs & lines & Ht & _ & _ & _ & Hf & _).
  rewrite (emitted_app _ _ _ Ht). exact Hf.
Qed.

(** X8.  The calls of a run that can change the backend are, in order, at
    most one [open], one [close] and one [unlink]: [close] is called only
    after an [open] that gave a descriptor, and on that descriptor; [unlink]
    only after both.  Nothing is unlinked by a run that has not itself
    opened the path with success. *)
Theorem run_changes (prog path : string) (rest : list string) (w : world) :
  change_shape path
    (List.filter is_change (emitted w (run (prog :: path :: rest) w).2)).
Proof.
  destruct (run_summary prog path rest w)
    as (evs & lines & Ht & _ & _ & _ & _ & Hc & _).
  rewrite (emitted_app _ _ _ Ht). exact Hc.
Qed.

(** X9.  What status 0 certifies about the backend: the parent directory
    opened and did not list the base name; [open] then gave a descriptor;
    after [close] on it the parent listed the name; [unlink] then
    succeeded; after it the parent did not list the name any more.  The
    backend is left in the state [unlink] gave. *)
Theorem run_pass_certifies (prog path : string) (rest : list string) (w : world) :
  (run (prog :: path :: rest) w).1 = Exited 0 ->
  exists parent name l1 fd s2 rc s3 l2 s5 l3,
    parent_and_name path = Some (parent, name) /\
    os_opendir (w_fs w) parent = Ok l1 /\ (name ∉ l1) /\
    os_open (w_fs w) path create_flags = (Ok fd, s2) /\ fd <> -1 /\
    os_close s2 fd = (rc, s3) /\
    os_opendir s3 parent = Ok l2 /\ (name ∈ l2) /\
    os_unlink s3 path = (Ok tt, s5) /\
    os_opendir s5 parent = Ok l3 /\ (name ∉ l3) /\
    w_fs (run (prog :: path :: rest) w).2 = s5.
Proof.
  destruct (run (prog :: path :: rest) w) as [o wf] eqn:R. simpl. intros ->.
  apply run_passes in R.
  destruct R as (w5 & (w4 & u & (w3 & (w1 & fd & w2 & c & L1 & O & Hfd & C) & L2)
                   & U & Hu) & L3).
  unfold absent1 in L1.
  destruct (lookup_ret_inv _ _ _ _ L1) as (parent & name & l1 & E & Ho1 & V1 & F1).
  destruct (lookup_ret_inv _ _ _ _ L2) as (p2 & n2 & l2 & E2 & Ho2 & V2 & F2).
  destruct (lookup_ret_inv _ _ _ _ L3) as (p3 & n3 & l3 & E3 & Ho3 & V3 & F3).
  rewrite E in E2, E3. injection E2 as <- <-. injection E3 as <- <-.
  rewrite c_open_eq in O. rewrite F1 in O.
  destruct (os_open (w_fs w) path create_flags) as [ro s2] eqn:Oo.
  simpl in O. injection O as Hro Hw2.
  destruct ro as [e|fd']; simpl in Hro; [congruence|]. subst fd'.
  assert (w_fs w2 = s2) as F2' by (rewrite <- Hw2; reflexivity).
  rewrite c_close_eq in C. rewrite F2' in C.
  destruct (os_close s2 fd) as [rc s3] eqn:Oc. simpl in C. injection C as _ Hw3.
  assert (w_fs w3 = s3) as F3' by (rewrite <- Hw3; destruct rc; reflexivity).
  rewrite F3' in Ho2.
  rewrite c_unlink_eq in U. rewrite F2, F3' in U.
  destruct (os_unlink s3 path) as [ru s5] eqn:Ou. simpl in U.
  injection U as Hru Hw5.
  destruct ru as [e|[]]; simpl in Hru; [congruence|].
  assert (w_fs w5 = s5) as F5 by (rewrite <- Hw5; reflexivity).
  rewrite F5 in Ho3.
  exists parent, name, l1, fd, s2, rc, s3, l2, s5, l3.
  split; [first [exact E|reflexivity]|]. split; [exact Ho1|].
  split; [destruct (decide (name ∈ l1)); [discriminate V1|assumption]|].
  split; [first [exact Oo|reflexivity]|]. split; [exact Hfd|].
  split; [first [exact Oc|reflexivity]|]. split; [exact Ho2|].
  split; [destruct (decide (name ∈ l2)); [assumption|discriminate V2]|].
  split; [first [exact Ou|reflexivity]|]. split; [exact Ho3|].
  split; [destruct (decide (name ∈ l3)); [discriminate V3|assumption]|].
  simpl. congruence.
Qed.

Lemma open_minus1 (path : string) (w w' : world) :
  c_open (Some path) create_flags w = (Ret (-1), w') ->
  exists r,
    c_ret id r = -1 /\ (forall e, r = Err e -> w_errno w' = e) /\
    stage path w w' [EvOpen path create_flags r].
Proof.
  rewrite c_open_eq.
  destruct (os_open (w_fs w) path create_flags) as [r s]. simpl.
  intros [= Hr <-]. exists r. split; [exact Hr|]. split.
  - intros e ->. reflexivity.
  - exists [EvOpen path create_flags r].
    destruct r; simpl; repeat (split; [reflexivity|]);
      (split; [|reflexivity]); (constructor; [split; reflexivity|constructor]).
Qed.

Lemma unlink_minus1 (path : string) (w w' : world) :
  c_unlink (Some path) w = (Ret (-1), w') ->
  stage path w w' [EvUnlink path (Err (w_errno w'))].
Proof.
  rewrite c_unlink_eq.
  destruct (os_unlink (w_fs w) path) as [[e|[]] s]; simpl; intros [= <-].
  exists [EvUnlink path (Err e)]. simpl. repeat (split; [reflexivity|]).
  split; [|reflexivity]. constructor; [reflexivity|constructor].
Qed.

Lemma deleted_stage_ok (path : string) (w w5 : world) :
  deleted (Some path) w w5 ->
  exists fd rc,
    fd <> -1 /\
    stage path w w5
      [EvOpen path create_flags (Ok fd); EvClose fd rc; EvUnlink path (Ok tt)].
Proof.
  intros (w4 & u & Hp & U & Hu).
  destruct (present_stage _ _ _ Hp) as (fd & rc & Hfd & S).
  destruct (unlink_stage _ _ _ _ U) as (ru & Hru & Su).
  destruct ru as [e|[]]; simpl in Hru; [contradiction|].
  exists fd, rc. split; [exact Hfd|].
  apply (stage_trans _ _ _ _ [_; _] [_] S Su).
Qed.

(** X12.  A run as seen from outside ends in one of nine ways, each with
    its output and its calls that can change the backend: an abort comes
    with one message, a status 1 with the line of the failed call ([open: ]
    or [unlink: ], the text of its error, a line feed).  In particular a
    run that fails after it has created the file (the second lookup does
    not find it, or is undefined) never calls [unlink]: nothing is cleaned
    up; and a run that ended with status 0 has made exactly the three
    calls, each with success but possibly [close]. *)
Theorem run_report (prog path : string) (rest : list string) (w : world) :
  exists lines,
    w_stderr (run (prog :: path :: rest) w).2 = w_stderr w ++ lines /\
    report path (run (prog :: path :: rest) w).1 lines
      (List.filter is_change (emitted w (run (prog :: path :: rest) w).2)).
Proof.
  assert (forall (o : outcome Z) (wk : world) (cs : list event) (lines : list string),
            stage path w wk cs -> report path o lines cs ->
            forall wf, w_trace wf = w_trace wk ->
              w_stderr wf = w_stderr wk ++ lines ->
            exists lines,
              w_stderr wf = w_stderr w ++ lines /\
              report path o lines (List.filter is_change (emitted w wf))) as Hfin.
  { intros o wk cs lines (evs & T & S & _ & _ & _ & C) Hr wf T' S'.
    exists lines. rewrite S', S. split; [reflexivity|].
    rewrite <- T' in T. rewrite (emitted_app _ _ _ T), C. exact Hr. }
  pose proof (run_ends prog path rest w) as He.
  destruct (run (prog :: path :: rest) w) as [o wf]. simpl.
  inversion He as [u w1 L|v w1 L Hv|w1 w2 Ha O|w3 u w4 Hc L|w3 v w4 Hc L Hv
                  |w4 w5 Hp U|w5 u w6 Hd L|w5 v w6 Hd L Hv|w' Hpass]; subst.
  - eapply (Hfin _ wf [] []); try reflexivity;
      [eapply lookup_stage, L|constructor|symmetry; apply app_nil_r].
  - eapply (Hfin _ w1 [] [assert_line line46]); try reflexivity;
      [eapply lookup_stage, L|apply rep_abort1].
  - destruct (open_minus1 _ _ _ O) as (r & Hr & He' & So).
    eapply (Hfin _ w2 ([] ++ [EvOpen path create_flags r])
              [perror_line "open" (w_errno w2)]); try reflexivity.
    + eapply stage_trans; [eapply lookup_stage, Ha|exact So].
    + apply rep_open; [exact Hr|]. intros e' Hre. apply He', Hre.
  - destruct (created_stage _ _ _ Hc) as (fd & rc & Hfd & S).
    eapply (Hfin _ wf ([_; _] ++ []) []); try reflexivity.
    + eapply stage_trans; [exact S|eapply lookup_stage, L].
    + apply rep_undef2, Hfd.
    + symmetry; apply app_nil_r.
  - destruct (created_stage _ _ _ Hc) as (fd & rc & Hfd & S).
    eapply (Hfin _ w4 ([_; _] ++ []) [assert_line line49]); try reflexivity.
    + eapply stage_trans; [exact S|eapply lookup_stage, L].
    + apply rep_abort2, Hfd.
  - destruct (present_stage _ _ _ Hp) as (fd & rc & Hfd & S).
    pose proof (unlink_minus1 _ _ _ U) as Su.
    eapply (Hfin _ w5 ([_; _] ++ [_]) [perror_line "unlink" (w_errno w5)]);
      try reflexivity.
    + eapply stage_trans; [exact S|exact Su].
    + apply rep_unlink, Hfd.
  - destruct (deleted_stage_ok _ _ _ Hd) as (fd & rc & Hfd & S).
    eapply (Hfin _ wf ([_; _; _] ++ []) []); try reflexivity.
    + eapply stage_trans; [exact S|eapply lookup_stage, L].
    + apply rep_undef3, Hfd.
    + symmetry; apply app_nil_r.
  - destruct (deleted_stage_ok _ _ _ Hd) as (fd & rc & Hfd & S).
    eapply (Hfin _ w6 ([_; _; _] ++ []) [assert_line line46]); try reflexivity.
    + eapply stage_trans; [exact S|eapply lookup_stage, L].
    + apply rep_abort3, Hfd.
  - destruct Hpass as (w5 & Hd & L).
    destruct (deleted_stage_ok _ _ _ Hd) as (fd & rc & Hfd & S).
    eapply (Hfin _ wf ([_; _; _] ++ []) []); try reflexivity.
    + eapply stage_trans; [exact S|eapply lookup_stage, L].
    + apply rep_pass, Hfd.
    + symmetry; apply app_nil_r.
Qed.

End RunMore.

Lemma run_pass_certifies_witness :
  exists parent name l1 fd s2 rc s3 l2 s5 l3,
    parent_and_name "/tmp/test_dir/sample.txt" = Some (parent, name) /\
    posix_opendir empty_dir parent = Ok l1 /\ (name ∉ l1) /\
    posix_open empty_dir "/tmp/test_dir/sample.txt" create_flags = (Ok fd, s2) /\
    fd <> -1 /\
    posix_close s2 fd = (rc, s3) /\
    posix_opendir s3 parent = Ok l2 /\ (name ∈ l2) /\
    posix_unlink s3 "/tmp/test_dir/sample.txt" = (Ok tt, s5) /\
    posix_opendir s5 parent = Ok l3 /\ (name ∉ l3) /\
    w_fs (@run posix sample_argv (boot empty_dir)).2 = s5.
Proof.
  apply (@run_pass_certifies posix "s3test" "/tmp/test_dir/sample.txt" []
           (boot empty_dir)).
  vm_compute. reflexivity.
Defined.

Lemma run_no_leak_witness :
  w_heap (@run posix sample_argv (boot empty_dir)).2 = w_heap (boot empty_dir) /\
  w_dirs (@run posix sample_argv (boot empty_dir)).2 = w_dirs (boot empty_dir).
Proof.
  apply (@run_no_leak posix sample_argv (boot empty_dir)).
  intros u. vm_compute. discriminate.
Defined.

(** ** Of a second run *)

Section RunTwice.
Context {B : Backend}.














End RunTwice.


(** The state the first run leaves on the backend with markers. *)
Example tomb_residue :
  (w_fs (@run tomb sample_argv (tomb_boot empty_dir)).2).2
    = ["/tmp/test_dir/sample.txt"%string] /\
  (w_fs (tomb_boot empty_dir)).2 = [].
Proof. split; vm_compute; reflexivity. Qed.

